(** * remage runtime tests: the plotting notebook and the benchmark engine

    The first part embeds [plotter.ipynb]: the Python values the notebook
    handles (parsed JSON, nested dictionaries that keep insertion order),
    [generate_output] and [draw_project].  Python exceptions are modelled
    by [None].

    The second part models the benchmark engine (template expander,
    statistics aggregator, level executor, local orchestrator), whose
    modules are not among the available sources, from its specification. *)

From Stdlib Require Import List String Ascii Bool Arith ZArith Lia.
From Stdlib Require Import Permutation Sorted.
From Stdlib Require Import QArith Reals Lra.
Import ListNotations.

Set Implicit Arguments.
Set Warnings "-register-all".

Close Scope Q_scope.
Local Open Scope string_scope.
Local Open Scope list_scope.

(** ** Option as the exception monad *)

Definition bind {A B : Type} (a : option A) (f : A -> option B) : option B :=
  match a with
  | Some x => f x
  | None => None
  end.

Notation "x <- a ;; b" := (bind a (fun x => b))
  (at level 61, a at next level, right associativity).

Fixpoint mapM {A B : Type} (f : A -> option B) (l : list A) : option (list B) :=
  match l with
  | [] => Some []
  | x :: l' => y <- f x ;; ys <- mapM f l' ;; Some (y :: ys)
  end.

Fixpoint filterM {A : Type} (f : A -> option bool) (l : list A) : option (list A) :=
  match l with
  | [] => Some []
  | x :: l' =>
      b <- f x ;; ys <- filterM f l' ;; Some (if b then x :: ys else ys)
  end.

(** ** Python strings *)

Module PyStr.

(** [s.split(sep)] for a one-character separator: never returns the empty
    list, keeps empty components. *)
Fixpoint split (sep : ascii) (s : string) : list string :=
  match s with
  | EmptyString => [EmptyString]
  | String c s' =>
      if Ascii.eqb c sep then EmptyString :: split sep s'
      else match split sep s' with
           | h :: t => String c h :: t
           | [] => [String c EmptyString]
           end
  end.

(** [k in s] on strings: substring test. *)
Fixpoint contains (k s : string) : bool :=
  match s with
  | EmptyString => prefix k EmptyString
  | String _ s' => prefix k s || contains k s'
  end.

(** [sorted]/[list.sort] on strings compares by code point, that is
    [String.leb].  The sort is written as a straight insertion sort: on
    strings every stable sort returns the same list. *)
Fixpoint insert (x : string) (l : list string) : list string :=
  match l with
  | [] => [x]
  | y :: l' => if String.leb x y then x :: l else y :: insert x l'
  end.

Fixpoint sort (l : list string) : list string :=
  match l with
  | [] => []
  | x :: l' => insert x (sort l')
  end.

Definition lt (s1 s2 : string) : Prop := String.ltb s1 s2 = true.
Definition le (s1 s2 : string) : Prop := String.leb s1 s2 = true.

End PyStr.

(** ** Python values

    What [json.load] returns, and the dictionaries the notebook builds
    around it.  A dictionary is an association list in insertion order;
    [F] stands for the floats. *)

Section PyVal.

Variable F : Type.

Inductive pyval : Type :=
| PNone
| PBool (b : bool)
| PInt (z : Z)
| PFloat (x : F)
| PStr (s : string)
| PList (l : list pyval)
| PDict (d : list (string * pyval)).

Definition dict := list (string * pyval).

Definition keys (d : dict) : list string := map fst d.

Fixpoint lookup (k : string) (d : dict) : option pyval :=
  match d with
  | [] => None
  | (k', v) :: d' => if String.eqb k k' then Some v else lookup k d'
  end.

Definition has_key (k : string) (d : dict) : bool :=
  match lookup k d with Some _ => true | None => false end.

(** [d[k] = v]: replaces the value in place, or appends a new entry. *)
Fixpoint assoc_set (k : string) (v : pyval) (d : dict) : dict :=
  match d with
  | [] => [(k, v)]
  | (k', v') :: d' =>
      if String.eqb k k' then (k', v) :: d' else (k', v') :: assoc_set k v d'
  end.

Definition is_str (k : string) (v : pyval) : bool :=
  match v with PStr s => String.eqb s k | _ => false end.

(** [k in v] for a string [k]; [None] is the [TypeError] of a value that
    is not a container. *)
Definition py_in (k : string) (v : pyval) : option bool :=
  match v with
  | PDict d => Some (has_key k d)
  | PList l => Some (existsb (is_str k) l)
  | PStr s => Some (PyStr.contains k s)
  | _ => None
  end.

(** [v[k]] for a string [k]: [KeyError] on a missing key, [TypeError] on
    anything that is not a dictionary. *)
Definition getitem (v : pyval) (k : string) : option pyval :=
  match v with
  | PDict d => lookup k d
  | _ => None
  end.

(** [v[k] = x] for a string [k]. *)
Definition setitem (v : pyval) (k : string) (x : pyval) : option pyval :=
  match v with
  | PDict d => Some (PDict (assoc_set k x d))
  | _ => None
  end.

Fixpoint getpath (v : pyval) (p : list string) : option pyval :=
  match p with
  | [] => Some v
  | k :: p' => c <- getitem v k ;; getpath c p'
  end.

(** The object reached from the root along [p] is updated in place by
    [f]; every alias of it (the root included) sees the change. *)
Fixpoint update_at (p : list string) (f : pyval -> option pyval) (v : pyval)
  : option pyval :=
  match p with
  | [] => f v
  | k :: p' =>
      c <- getitem v k ;; c' <- update_at p' f c ;; setitem v k c'
  end.

End PyVal.

Arguments PNone {F}.
Arguments PBool {F} b.
Arguments PInt {F} z.
Arguments PStr {F} s.
Arguments PList {F} l.
Arguments PDict {F} d.

Fixpoint foldM {A B : Type} (f : A -> B -> option A) (l : list B) (a : A)
  : option A :=
  match l with
  | [] => Some a
  | x :: l' => a' <- f a x ;; foldM f l' a'
  end.

(** ** The notebook *)

Section Plotter.

(** The floats, with the two operations the notebook applies to them, and
    [numpy.median]. *)
Variable F : Type.
Variable float_of_Z : Z -> F.
Variable fdiv : F -> F -> F.
Variable np_median : list F -> F.

(** [json.load(open(file))]: the parsed content of a file, [None] when the
    file cannot be read or parsed. *)
Variable json_load : string -> option (pyval F).

(** The dictionaries on which [db.AttrsDict], of the dbetto library, does
    not raise.  The constructor sets every key that is an identifier as
    an attribute of the object as well, at every depth, and setting an
    attribute raises for some names. *)
Variable attrs_accepts : pyval F -> bool.

Definition file_string : string := "runtime_estimates.json".

(** [n_primaries = 2e6] *)
Definition n_primaries : F := float_of_Z 2000000.

Definition simple_default : list string := ["physics_list"; "em"; "Livermore"].

(** *** generate_output

    The loop state is the root dictionary [output] and the position of
    [tmp_output] in it, as the list of keys leading to it from the root. *)

Definition visit_folder (file : string) (st : pyval F * list string)
    (folder : string) : option (pyval F * list string) :=
  let '(output, cur) := st in
  if String.eqb folder "gen" then Some st
  else if String.eqb folder file_string then
    j <- json_load file ;;
    output' <- update_at cur (fun t => setitem t "data" j) output ;;
    Some (output', cur)
  else
    t <- getpath output cur ;;
    present <- py_in folder t ;;
    output' <- (if present then Some output
                else update_at cur (fun t => setitem t folder (PDict [])) output) ;;
    t' <- getpath output' cur ;;
    _ <- getitem t' folder ;;
    Some (output', cur ++ [folder]).

Definition visit_file (output : pyval F) (file : string) : option (pyval F) :=
  st <- foldM (visit_folder file) (PyStr.split "/" file) (output, []) ;;
  Some (fst st).

(** [db.AttrsDict(d)]: the dictionary itself, with attribute access to
    its keys, when the constructor does not raise. *)
Definition AttrsDict (d : pyval F) : option (pyval F) :=
  match d with
  | PDict _ => if attrs_accepts d then Some d else None
  | _ => None
  end.

Definition generate_output (files : list string) : option (pyval F) :=
  output <- foldM visit_file files (PDict []) ;;
  AttrsDict output.

(** The loop over the folders of one file as a recursive function of the
    object [tmp_output] points to; [visit_folders_place] shows that it is
    the same computation. *)
Fixpoint place (file : string) (folders : list string) (t : pyval F)
  : option (pyval F) :=
  match folders with
  | [] => Some t
  | folder :: rest =>
      if String.eqb folder "gen" then place file rest t
      else if String.eqb folder file_string then
        j <- json_load file ;;
        t' <- setitem t "data" j ;;
        place file rest t'
      else
        present <- py_in folder t ;;
        t1 <- (if present then Some t else setitem t folder (PDict [])) ;;
        c <- getitem t1 folder ;;
        c' <- place file rest c ;;
        setitem t1 folder c'
  end.

(** One unfolding of [place], the step into a folder written with
    [update_at]. *)
Definition place_step (file folder : string) (rest : list string) (t : pyval F)
  : option (pyval F) :=
  if String.eqb folder "gen" then place file rest t
  else if String.eqb folder file_string then
    j <- json_load file ;; t' <- setitem t "data" j ;; place file rest t'
  else
    present <- py_in folder t ;;
    t1 <- (if present then Some t else setitem t folder (PDict [])) ;;
    update_at [folder] (place file rest) t1.

(** The directory components of a path, and the key path they give once
    every ["gen"] is left out. *)
Definition directories (file : string) : list string :=
  removelast (PyStr.split "/" file).

Definition not_gen (folder : string) : bool := negb (String.eqb folder "gen").

Definition key_path (file : string) : list string :=
  filter not_gen (directories file).

Definition plain_folder (folder : string) : bool :=
  negb (String.eqb folder "data") && negb (String.eqb folder file_string).

(** A result file: the path ends in [file_string], and no directory on it
    is called ["data"] or [file_string]. *)
Definition result_file (file : string) : bool :=
  String.eqb (last (PyStr.split "/" file) "") file_string
  && forallb plain_folder (directories file).

(** Every object reached from [v] without going through a ["data"] key is
    a dictionary. *)
Definition folder_tree (v : pyval F) : Prop :=
  forall p c,
    Forall (fun k => k <> "data") p -> getpath v p = Some c ->
    exists d, c = PDict d.

(** *** draw_project

    The result is what the function hands to [ax.errorbar] and [ax.plot];
    the calls into matplotlib are not modelled. *)

Record plot : Type := {
  x_labels : list string;
  y_rate : list (pyval F);
  y_rate_unc : list (pyval F);
  y_rate_median : list F
}.

(** A number as a float: Python's [int] and [bool] convert. *)
Definition to_float (v : pyval F) : option F :=
  match v with
  | PFloat x => Some x
  | PInt z => Some (float_of_Z z)
  | PBool b => Some (float_of_Z (if b then 1 else 0))
  | _ => None
  end.

(** [v/10] *)
Definition div10 (v : pyval F) : option (pyval F) :=
  x <- to_float v ;; Some (PFloat (fdiv x (float_of_Z 10))).

(** The values that count as numbers: Python's [float], [int] and
    [bool]. *)
Definition is_number (v : pyval F) : bool :=
  match v with
  | PFloat _ | PInt _ | PBool _ => true
  | _ => false
  end.

(** The values that are neither a number nor a list: [None], a string,
    a dictionary. *)
Definition no_array (v : pyval F) : bool :=
  match v with
  | PNone | PStr _ | PDict _ => true
  | _ => false
  end.

Definition same_shape (s1 s2 : list nat) : bool :=
  if list_eq_dec Nat.eq_dec s1 s2 then true else false.

(** The shape and the elements, in row-major order, of the numeric array
    [np.array(v)]: a number is an array without axis, a list of arrays of
    one shape is an array with one more axis.  Anything else (a ragged
    list, a string, [None], a dictionary) gives no array that a float can
    be divided by. *)
Fixpoint np_flatten (v : pyval F) : option (list nat * list F) :=
  match v with
  | PList l =>
      rows <- (fix each (l : list (pyval F))
                 : option (list (list nat * list F)) :=
                 match l with
                 | [] => Some []
                 | x :: l' =>
                     r <- np_flatten x ;; rs <- each l' ;; Some (r :: rs)
                 end) l ;;
      match rows with
      | [] => Some ([0], [])
      | (shape, _) :: _ =>
          if forallb (fun r => same_shape (fst r) shape) rows
          then Some (List.length rows :: shape, List.concat (map snd rows))
          else None
      end
  | _ => x <- to_float v ;; Some ([], [x])
  end.

(** The elements of [np.array(v)], which is all that an elementwise
    division followed by [np.median] uses of it. *)
Definition np_array (v : pyval F) : option (list F) :=
  r <- np_flatten v ;; Some (snd r).

(** [np.median(n_primaries/np.array(v))] *)
Definition median_rate (v : pyval F) : option F :=
  arr <- np_array v ;; Some (np_median (map (fdiv n_primaries) arr)).

(** Lines 158-161: the keys of [data] whose value holds ["data"], in the
    order of [data.keys()]. *)
Definition discovered (data : pyval F) : option (list string) :=
  match data with
  | PDict d =>
      filterM (fun lab => v <- getitem data lab ;; py_in "data" v) (keys d)
  | _ => None
  end.

Definition stored (data : pyval F) (project : string) (p : list string)
  : option (pyval F) :=
  lvl <- getitem data project ;; getpath lvl ("data" :: p).

(** Lines 171-173: [output["simple"][project_list[1]]], then down the keys
    of [simple_default]. *)
Definition default_entry (output : pyval F) (project_list : list string)
  : option (pyval F) :=
  simple <- getitem output "simple" ;;
  p1 <- nth_error project_list 1 ;;
  tmp <- getitem simple p1 ;;
  getpath tmp simple_default.

Definition draw_project (output data : pyval F) (project_list : list string)
  : option plot :=
  labs <- discovered data ;;
  let labels := PyStr.sort labs in
  rate <- mapM (fun project => stored data project ["event_rate"; "val"]) labels ;;
  unc <- mapM (fun project =>
                 s <- stored data project ["event_rate"; "std"] ;; div10 s)
              labels ;;
  med <- mapM (fun project =>
                 r <- stored data project ["raw"; "runtimes"] ;; median_rate r)
              labels ;;
  if Nat.eqb (List.length labels) 1 then
    tmp <- default_entry output project_list ;;
    val <- getpath tmp ["data"; "event_rate"; "val"] ;;
    std <- getpath tmp ["data"; "event_rate"; "std"] ;;
    r <- getpath tmp ["data"; "raw"; "runtimes"] ;;
    m <- median_rate r ;;
    Some {| x_labels := labels ++ ["default"];
            y_rate := rate ++ [val];
            y_rate_unc := unc ++ [std];
            y_rate_median := med ++ [m] |}
  else
    Some {| x_labels := labels; y_rate := rate;
            y_rate_unc := unc; y_rate_median := med |}.

End Plotter.

(** *** The floats as exact rationals

    An instance of the section's parameters on which the notebook can be
    run: rounding is not modelled. *)

Module QFloat.

Fixpoint insert (x : Q) (l : list Q) : list Q :=
  match l with
  | [] => [x]
  | y :: l' => if Qle_bool x y then x :: l else y :: insert x l'
  end.

Definition sort (l : list Q) : list Q := fold_right insert [] l.

(** The middle element of the sorted data, or the mean of the two middle
    ones. *)
Definition median (l : list Q) : Q :=
  let s := sort l in
  let n := List.length s in
  if Nat.even n
  then Qdiv (Qplus (nth (n / 2 - 1) s 0%Q) (nth (n / 2) s 0%Q)) (inject_Z 2)
  else nth (n / 2) s 0%Q.

Definition val : Type := pyval Q.

(** No key, at any depth, starts with two underscores: attributes of
    such names can always be set. *)
Fixpoint plain_keys (v : val) : bool :=
  match v with
  | PDict d =>
      (fix entries (d : list (string * val)) : bool :=
         match d with
         | [] => true
         | (k, v') :: d' => negb (prefix "__" k) && plain_keys v' && entries d'
         end) d
  | PList l =>
      (fix elements (l : list val) : bool :=
         match l with
         | [] => true
         | x :: l' => plain_keys x && elements l'
         end) l
  | _ => true
  end.

Definition draw_project : val -> val -> list string -> option (plot Q) :=
  draw_project inject_Z Qdiv median.

Definition generate_output (fs : string -> option val) : list string -> option val :=
  generate_output fs plain_keys.

End QFloat.

(** ** The benchmark engine *)

(** *** Template Expander *)

Module Template.

(** Modelled from the spec: the Template Expander ([expand]), whose module
    is not among the sources.  Substitution is textual: each binding of the
    mapping, in the mapping's order, replaces every occurrence of each
    form of its placeholder by the value. *)
Fixpoint replace_from (old new : string) (skip : nat) (s : string) : string :=
  match s with
  | EmptyString => EmptyString
  | String c s' =>
      match skip with
      | S n => replace_from old new n s'
      | O =>
          if prefix old s
          then (new ++ replace_from old new (String.length old - 1) s')%string
          else String c (replace_from old new 0 s')
      end
  end.

(** Every occurrence of [old], leftmost first and not overlapping,
    becomes [new]; an empty token names no placeholder. *)
Definition replace (old new s : string) : string :=
  match old with
  | EmptyString => s
  | _ => replace_from old new 0 s
  end.

Definition bindings : Type := list (string * string).




Definition bracketed (name : string) : string := ("{" ++ name ++ "}")%string.

(** Modelled from the spec: the fixed legacy tokens of the placeholder
    vocabulary.  The spec names no bracketed placeholder for the derived
    output file path; [OUTPUT_FILE] is the name it has here. *)
Definition legacy (name : string) : list string :=
  if String.eqb name "N_PRIMARIES" then ["NUMBER_PIMARY_PLACEHOLDER"]
  else if String.eqb name "OUTPUT_FILE" then ["OUTPUT_HDF5_PLACEHOLDER"]
  else [].

Section Expand.

(** The legacy tokens that stand for a placeholder name. *)
Variable legacy_tokens : string -> list string.

Definition forms (name : string) : list string :=
  bracketed name :: legacy_tokens name.

Definition substitute (t : string) (kv : string * string) : string :=
  fold_left (fun acc tok => replace tok (snd kv) acc) (forms (fst kv)) t.

(** Modelled from the spec: [expand(template_text, bindings) -> text]. *)
Definition expand (t : string) (b : bindings) : string :=
  fold_left substitute b t.


End Expand.

(** A line of a macro that uses both syntaxes and a placeholder the
    engine does not know. *)
Definition macro : string :=
  "/run/beamOn {N_PRIMARIES} NUMBER_PIMARY_PLACEHOLDER {N_THREADS} {OTHER}".

End Template.

(** *** Templates as literal text and bracketed placeholders *)

Module TemplateShape.

Import Template.









Section Inert.

Variable legacy_tokens : string -> list string.


End Inert.


End TemplateShape.

(** *** Execution modes *)

Inductive execution_mode : Type :=
| multithreaded_fix
| multithreaded_scaled
| multiprocessed_fix
| multiprocessed_scaled.

Definition is_scaled (m : execution_mode) : bool :=
  match m with
  | multithreaded_scaled | multiprocessed_scaled => true
  | multithreaded_fix | multiprocessed_fix => false
  end.

(** Modelled from the spec: step 2 of the Level Executor, whose module is
    not among the sources.  [_fix] modes hold [n_primaries] constant,
    [_scaled] modes multiply the baseline by the m_step. *)
Definition effective_primaries (mode : execution_mode) (n_primaries m_step : Z) : Z :=
  if is_scaled mode then (n_primaries * m_step)%Z else n_primaries.

(** *** Statistics Aggregator *)

Module Stats.

Local Open Scope R_scope.

Definition sum (l : list R) : R := fold_right Rplus 0 l.

Definition mean (l : list R) : R := sum l / INR (List.length l).

(** Population standard deviation: the divisor is the number of values. *)
Definition pstd (l : list R) : R :=
  sqrt (sum (map (fun x => (x - mean l) * (x - mean l)) l) / INR (List.length l)).

Definition minimum (x : R) (l : list R) : R := fold_left Rmin l x.
Definition maximum (x : R) (l : list R) : R := fold_left Rmax l x.

Record event_rate : Type := { val : R; rate_std : R }.

(** Modelled from the spec: the statistics of a level. *)
Record LevelStats : Type := {
  raw : list R;
  stat_mean : R;
  stat_std : R;
  stat_min : R;
  stat_max : R;
  rates : list R;
  rate : event_rate
}.

Inductive error : Type := NoValidTrialsError.

(** Modelled from the spec: [aggregate(durations, n_primaries)], whose
    module is not among the sources.  The rate series is
    [n_primaries / duration], aggregated like the durations; no duration
    at all is an error. *)
Definition aggregate (durations : list R) (n_primaries : Z)
  : error + LevelStats :=
  match durations with
  | [] => inl NoValidTrialsError
  | d :: ds =>
      let rs := map (fun x => IZR n_primaries / x) durations in
      inr {| raw := durations;
             stat_mean := mean durations;
             stat_std := pstd durations;
             stat_min := minimum d ds;
             stat_max := maximum d ds;
             rates := rs;
             rate := {| val := mean rs; rate_std := pstd rs |} |}
  end.

End Stats.

(** *** Trial Runner, Level Executor, Local Orchestrator *)

Module Engine.

Import Stats.

(** Modelled from the spec: what the Trial Runner observes of the
    external executable, the time it takes when it is left alone and its
    exit status. *)
Record process : Type := { wall : R; status : Z }.

(** Modelled from the spec: the outcome of one trial. *)
Inductive trial : Type :=
| Completed (duration : R) (exit_status : Z)
| TimedOut.

(** Modelled from the spec: [run_trial], whose module is not among the
    sources.  A process that exceeds the timeout is terminated. *)
Definition run_trial (timeout : R) (p : process) : trial :=
  if Rlt_dec timeout (wall p) then TimedOut
  else Completed (wall p) (status p).

(** Modelled from the spec: a trial counts as failed when it timed out or
    ended with a non-zero status. *)
Definition failed (t : trial) : bool :=
  match t with
  | TimedOut => true
  | Completed _ st => negb (Z.eqb st 0)
  end.

(** Modelled from the spec: the fields of the Configuration that the
    engine reads. *)
Record Config : Type := {
  project_name : string;
  m_steps : list Z;
  n_primaries : Z;
  mode : execution_mode;
  repetitions : nat;
  dry_run : bool;
  overwrite : bool;
  skip_existing : bool
}.

(** Modelled from the spec: the Level Result, with the number of failed
    trials it records. *)
Record LevelResult : Type := {
  lr_m_step : Z;
  lr_mode : execution_mode;
  lr_n_primaries : Z;
  lr_stats : LevelStats;
  lr_failed : nat;
  lr_config : Config
}.

(** Modelled from the spec: the per-level artifacts of one project in the
    results directory, by m_step. *)
Definition store : Type := list (Z * LevelResult).

Fixpoint artifact (s : Z) (st : store) : option LevelResult :=
  match st with
  | [] => None
  | (s', r) :: st' => if Z.eqb s s' then Some r else artifact s st'
  end.

Definition exists_artifact (s : Z) (st : store) : bool :=
  match artifact s st with Some _ => true | None => false end.

Definition write (s : Z) (r : LevelResult) (st : store) : store :=
  (s, r) :: filter (fun e => negb (Z.eqb (fst e) s)) st.

Inductive level_outcome : Type :=
| Skipped
| Simulated (primaries : Z)
| Done (r : LevelResult)
| Failed (e : error).

Section Executor.

(** The external executable: the run it makes for an m_step, a number of
    primaries and a trial index. *)
Variable exec : Z -> Z -> nat -> process.

(** The timeout the caller sets on a trial. *)
Variable timeout : R.

(** The spec gives two readings of a trial that ends with a non-zero
    status without timing out: its duration is kept in the statistics
    (Trial Runner contract) or left out (error taxonomy, and step 6 of the
    Level Executor).  [true] is the first reading. *)
Variable keep_failed_exit : bool.

(** Modelled from the spec: the duration a trial contributes to the
    statistics of its level, if any. *)
Definition valid_duration (t : trial) : option R :=
  match t with
  | TimedOut => None
  | Completed d st =>
      if Z.eqb st 0 || keep_failed_exit then Some d else None
  end.

Fixpoint valid_durations (ts : list trial) : list R :=
  match ts with
  | [] => []
  | t :: ts' =>
      match valid_duration t with
      | Some d => d :: valid_durations ts'
      | None => valid_durations ts'
      end
  end.

(** Modelled from the spec: step 5 of the Level Executor, the trials of a
    level, run one after the other; a failure does not stop the loop. *)
Definition level_trials (cfg : Config) (s : Z) : list trial :=
  let n := effective_primaries (mode cfg) (n_primaries cfg) s in
  map (fun i => run_trial timeout (exec s n i)) (seq 0 (repetitions cfg)).

(** Modelled from the spec: step 1 of the Level Executor, the level whose
    artifact exists is skipped unless it is to be overwritten. *)
Definition satisfied (cfg : Config) (st : store) (s : Z) : bool :=
  skip_existing cfg && exists_artifact s st && negb (overwrite cfg).

(** Modelled from the spec: [execute_level(config, m_step)], whose module
    is not among the sources. *)
Definition execute_level (cfg : Config) (st : store) (s : Z)
  : store * level_outcome :=
  if satisfied cfg st s then (st, Skipped)
  else
    let n := effective_primaries (mode cfg) (n_primaries cfg) s in
    if dry_run cfg then (st, Simulated n)
    else
      let ts := level_trials cfg s in
      match aggregate (valid_durations ts) n with
      | inl e => (st, Failed e)
      | inr stats =>
          let r := {| lr_m_step := s; lr_mode := mode cfg;
                      lr_n_primaries := n; lr_stats := stats;
                      lr_failed := List.length (filter failed ts);
                      lr_config := cfg |} in
          (write s r st, Done r)
      end.

(** Modelled from the spec: the loop of the Local Orchestrator over the
    configured m_steps, in their order; the error of a level stays with
    that level. *)
Fixpoint run_levels (cfg : Config) (steps : list Z) (st : store)
  : store * list (Z * level_outcome) :=
  match steps with
  | [] => (st, [])
  | s :: steps' =>
      let '(st1, o) := execute_level cfg st s in
      let '(st2, os) := run_levels cfg steps' st1 in
      (st2, (s, o) :: os)
  end.

Definition run (cfg : Config) (st : store) : store * list (Z * level_outcome) :=
  run_levels cfg (m_steps cfg) st.

End Executor.

End Engine.

(** ** The notebook: the overview of all projects *)

Section Overview.

Variable F : Type.
Variable float_of_Z : Z -> F.
Variable fdiv : F -> F -> F.
Variable np_median : list F -> F.

(** The dictionaries on which [db.AttrsDict] does not raise. *)
Variable attrs_accepts : pyval F -> bool.

(** *** iterate_nested_dict *)

(** [f"{parent_key}.{k}" if parent_key else k]: the empty string is
    false. *)
Definition full_key (parent_key k : string) : string :=
  match parent_key with
  | EmptyString => k
  | _ => (parent_key ++ "." ++ k)%string
  end.

(** The body of the loop for one item, already under its full key: a
    dictionary is walked in turn, anything else is yielded. *)
Fixpoint iterate_value (key : string) (v : pyval F) : list (string * pyval F) :=
  match v with
  | PDict d =>
      (fix items (d : list (string * pyval F)) : list (string * pyval F) :=
         match d with
         | [] => []
         | (k, v') :: d' => iterate_value (full_key key k) v' ++ items d'
         end) d
  | _ => [(key, v)]
  end.

(** The pairs the generator yields, in the order it yields them. *)
Definition iterate_nested_dict (d : dict F) (parent_key : string)
  : list (string * pyval F) :=
  flat_map (fun kv => iterate_value (full_key parent_key (fst kv)) (snd kv)) d.

(** The key a chain of nested keys is yielded under. *)
Definition dotted (parent_key : string) (p : list string) : string :=
  fold_left full_key p parent_key.

(** Every dictionary below [v], lists apart, has pairwise distinct keys,
    as every Python dictionary has. *)
Fixpoint distinct_keys (v : pyval F) : Prop :=
  match v with
  | PDict d =>
      NoDup (keys d) /\
      (fix all (d : list (string * pyval F)) : Prop :=
         match d with
         | [] => True
         | (_, v') :: d' => distinct_keys v' /\ all d'
         end) d
  | _ => True
  end.

(** *** generate_project_folders *)

(** [l.index(x)]: the first position of [x], [None] for the
    [ValueError]. *)
Fixpoint index (x : string) (l : list string) : option nat :=
  match l with
  | [] => None
  | y :: l' => if String.eqb y x then Some 0 else i <- index x l' ;; Some (S i)
  end.

(** [key.split(".")], cut before its first ["data"]. *)
Definition folders_of (key : string) : option (list string) :=
  let folder_list := PyStr.split "." key in
  data_idx <- index "data" folder_list ;;
  Some (firstn data_idx folder_list).

(** The loop over [range(0,len(folder_list))] from the index where [rest]
    starts; the state is [project_folders] and the position of [tmp_dict]
    in it. *)
Fixpoint record_from (folder_list rest : list string)
    (st : pyval F * list string) : option (pyval F * list string) :=
  match rest with
  | [] => Some st
  | folder :: rest' =>
      let '(project_folders, cur) := st in
      match rest' with
      | [] =>
          project_folders' <-
            update_at cur
              (fun t => setitem t folder (PStr (last folder_list "")))
              project_folders ;;
          Some (project_folders', cur)
      | _ :: _ =>
          t <- getpath project_folders cur ;;
          present <- py_in folder t ;;
          project_folders' <-
            (if present then Some project_folders
             else update_at cur (fun t => setitem t folder (PDict []))
                            project_folders) ;;
          t' <- getpath project_folders' cur ;;
          _ <- getitem t' folder ;;
          record_from folder_list rest' (project_folders', cur ++ [folder])
      end
  end.

(** The body of the loop over the yielded keys. *)
Definition record (project_folders : pyval F) (key : string)
  : option (pyval F) :=
  if negb (PyStr.contains "data" key) then Some project_folders
  else
    folder_list <- folders_of key ;;
    st <- record_from folder_list folder_list (project_folders, []) ;;
    Some (fst st).

(** [output.items()] raises on anything that is not a dictionary; the
    result goes through [db.AttrsDict]. *)
Definition generate_project_folders (output : pyval F) : option (pyval F) :=
  match output with
  | PDict d =>
      project_folders <-
        foldM record (map fst (iterate_nested_dict d "")) (PDict []) ;;
      AttrsDict attrs_accepts project_folders
  | _ => None
  end.

(** Every entry is a dictionary of the same kind or the name it is
    stored under. *)
Inductive names_tree : pyval F -> Prop :=
| names_tree_dict (d : dict F) :
    (forall k v, In (k, v) d -> v = PStr k \/ names_tree v) ->
    names_tree (PDict d).

(** *** generate_overview_plots *)

(** [lists[:-1]] *)
Definition project_of (key : string) : list string :=
  removelast (PyStr.split "." key).

Definition add_project (projects : list (list string)) (key : string)
  : list (list string) :=
  let project := project_of key in
  if in_dec (list_eq_dec string_dec) project projects then projects
  else projects ++ [project].

Definition projects_of (project_folders : pyval F) : option (list (list string)) :=
  match project_folders with
  | PDict d =>
      Some (fold_left add_project (map fst (iterate_nested_dict d "")) [])
  | _ => None
  end.

(** The plots drawn, one per project and in the order of the projects.
    [draw_project] reads the notebook's global [output], here
    [global_output]; the notebook passes the same dictionary as
    argument. *)
Definition generate_overview_plots (global_output output : pyval F)
  : option (list (plot F)) :=
  project_folders <- generate_project_folders output ;;
  projects <- projects_of project_folders ;;
  mapM (fun project =>
          tmp_dict <- getpath output project ;;
          draw_project float_of_Z fdiv np_median global_output tmp_dict project)
       projects.

End Overview.

(** Induction on Python values that goes through the values of a
    dictionary. *)
Section PyvalInduction.

Variable F : Type.
Variable P : pyval F -> Prop.

Hypothesis HNone : P PNone.
Hypothesis HBool : forall b, P (PBool b).
Hypothesis HInt : forall z, P (PInt z).
Hypothesis HFloat : forall x, P (PFloat x).
Hypothesis HStr : forall s, P (PStr s).
Hypothesis HList : forall l, P (PList l).
Hypothesis HDict : forall d, Forall (fun kv => P (snd kv)) d -> P (PDict d).

Fixpoint pyval_values_ind (v : pyval F) : P v :=
  match v with
  | PNone => HNone
  | PBool b => HBool b
  | PInt z => HInt z
  | PFloat x => HFloat x
  | PStr s => HStr s
  | PList l => HList l
  | PDict d =>
      HDict
        ((fix values (d : list (string * pyval F))
            : Forall (fun kv => P (snd kv)) d :=
            match d with
            | [] => Forall_nil _
            | kv :: d' => Forall_cons kv (pyval_values_ind (snd kv)) (values d')
            end) d)
  end.

End PyvalInduction.

(** ** Sample artifacts *)

Module Sample.

Import QFloat.

Local Open Scope Z_scope.

Definition level (rate std : Z) (runtimes : list Z) (primaries : Z) : val :=
  PDict [("data",
          PDict [("event_rate",
                  PDict [("val", PFloat (inject_Z rate));
                         ("std", PFloat (inject_Z std))]);
                 ("raw", PDict [("runtimes", PList (map PInt runtimes))]);
                 ("config",
                  PDict [("simulation",
                          PDict [("n_primaries", PInt primaries)])])])].

Definition m1 : val := level 27330 560 [73; 71; 75] 1000.
Definition m2 : val := level 30085 660 [66; 68; 65] 2000.
Definition m16 : val := level 41000 900 [50; 48] 16000.

(** A project whose three levels were found in the order m2, m16, m1. *)
Definition levels : dict Q := [("m2", m2); ("m16", m16); ("m1", m1)].

Definition three_levels : val := PDict levels.

Definition one_level : val := PDict [("m1", m1)].

Definition livermore : val := level 25000 500 [80; 82; 81] 1000.

Definition output : val :=
  PDict [("simple",
          PDict [("electron",
                  PDict [("multithreaded", three_levels);
                         ("physics_list",
                          PDict [("em", PDict [("Livermore", livermore)])])])])].

Definition project_list : list string := ["simple"; "electron"; "multithreaded"].

(** A few result files on disk, by path. *)
Definition disk (file : string) : option val :=
  if String.eqb file "a/gen/m1/runtime_estimates.json" then Some (PDict [("run", PInt 1)])
  else if String.eqb file "a/m2/runtime_estimates.json" then Some (PDict [("run", PInt 2)])
  else if String.eqb file "a/m1/gen/runtime_estimates.json" then Some (PDict [("run", PInt 3)])
  else if String.eqb file "a/data/runtime_estimates.json" then Some (PDict [("run", PInt 4)])
  else if String.eqb file "a/runtime_estimates.json" then Some (PDict [("run", PInt 5)])
  else None.

Definition found : list string :=
  ["a/gen/m1/runtime_estimates.json"; "a/m2/runtime_estimates.json";
   "a/m1/gen/runtime_estimates.json"].

Definition plot_of (o : option (plot Q)) : plot Q :=
  match o with
  | Some p => p
  | None => {| x_labels := []; y_rate := []; y_rate_unc := []; y_rate_median := [] |}
  end.

Definition three_level_plot : plot Q :=
  Eval vm_compute in plot_of (draw_project output three_levels project_list).

Definition one_level_plot : plot Q :=
  Eval vm_compute in plot_of (draw_project output one_level project_list).

(** The m_step an artifact name [m<digits>] stands for. *)
Definition digit (c : ascii) : option Z :=
  let n := Z.of_nat (nat_of_ascii c) in
  if (48 <=? n) && (n <=? 57) then Some (n - 48) else None.

Fixpoint digits (acc : Z) (s : string) : option Z :=
  match s with
  | EmptyString => Some acc
  | String c s' => d <- digit c ;; digits (10 * acc + d) s'
  end.

Definition m_step_of (label : string) : option Z :=
  match label with
  | String "m" (String c s') => digits 0 (String c s')
  | _ => None
  end.

(** The labels are all artifact names, in strictly ascending order of
    their m_steps. *)
Definition ascending_m_steps (labels : list string) : Prop :=
  exists steps, mapM m_step_of labels = Some steps /\ StronglySorted Z.lt steps.

End Sample.

(** ** Sample runs of the engine *)

Module SampleRun.

Import Engine.

Definition cfg : Config :=
  {| project_name := "my_runtime_test";
     m_steps := [1; 2]%Z;
     n_primaries := 10%Z;
     mode := multithreaded_scaled;
     repetitions := 3;
     dry_run := false;
     overwrite := false;
     skip_existing := true |}.

(** The timeout of the sample trials, in seconds. *)
Definition timeout : R := 60%R.

(** An executable that always hangs. *)
Definition hanging (s n : Z) (i : nat) : process :=
  {| wall := 100%R; status := 0%Z |}.

(** An executable whose second trial hangs. *)
Definition second_hangs (s n : Z) (i : nat) : process :=
  match i with
  | 1 => {| wall := 100%R; status := 0%Z |}
  | _ => {| wall := 10%R; status := 0%Z |}
  end.

End SampleRun.

(** ** Sample dictionaries for the overview *)

Module SampleOverview.

Import QFloat.

(** A folder that holds a result and, after it, a sub-folder with one. *)
Definition result_then_subfolder : val :=
  PDict [("a", PDict [("data", PDict [("x", PInt 1)]);
                      ("b", PDict [("data", PDict [("x", PInt 2)])])])].

(** A leaf whose key holds ["data"] only inside a longer name. *)
Definition metadata_only : val :=
  PDict [("a", PDict [("metadata", PInt 1)])].

Definition nested : dict Q :=
  [("a", PDict [("b", PInt 1); ("c", PDict [])]); ("d", PStr "x")].

Definition plots_of (o : option (list (plot Q))) : list (plot Q) :=
  match o with Some l => l | None => [] end.

(** The plots of the sample project tree. *)
Definition overview_plots : list (plot Q) :=
  Eval vm_compute in
    plots_of (generate_overview_plots inject_Z Qdiv median plain_keys
                                      Sample.output Sample.output).

(** Two levels, the second with an empty artifact. *)
Definition broken_levels : val :=
  PDict [("m1", Sample.m1);
         ("m2",
          PDict [("data",
                  PDict [("event_rate",
                          PDict [("val", PFloat (inject_Z 30085));
                                 ("std", PFloat (inject_Z 660))]);
                         ("raw",
                          PDict [("runtimes",
                                  PList [PInt 66; PNone; PInt 65])])])])].

(** A disk on which every file holds the same content. *)
Definition uniform_disk (file : string) : option val :=
  Some (PDict [("run", PInt 1)]).

End SampleOverview.

(** * Properties *)

(** ** The option monad *)

Lemma bind_Some {A B : Type} (a : option A) (f : A -> option B) (y : B) :
  bind a f = Some y -> exists x, a = Some x /\ f x = Some y.
Proof.
  destruct a as [x|]; simpl; intros H; [exists x; auto | discriminate].
Qed.

Ltac inv_bind H :=
  let x := fresh "x" in
  let E := fresh "E" in
  apply bind_Some in H; destruct H as [x [E H]].

Lemma mapM_ext {A B : Type} (f g : A -> option B) (l : list A) :
  (forall x, In x l -> f x = g x) -> mapM f l = mapM g l.
Proof.
  induction l as [|x l IH]; simpl; intros H; [reflexivity|].
  rewrite (H x (or_introl eq_refl)), IH; auto.
Qed.

Lemma mapM_nth {A B : Type} (f : A -> option B) (l : list A) (r : list B) :
  mapM f l = Some r ->
  forall i x, nth_error l i = Some x ->
  exists y, f x = Some y /\ nth_error r i = Some y.
Proof.
  revert r; induction l as [|a l IH]; simpl; intros r H i x Hi.
  - destruct i; discriminate.
  - inv_bind H. inv_bind H. injection H as <-.
    destruct i as [|i]; simpl in *.
    + injection Hi as <-. eauto.
    + eauto.
Qed.

Lemma mapM_length {A B : Type} (f : A -> option B) (l : list A) (r : list B) :
  mapM f l = Some r -> List.length r = List.length l.
Proof.
  revert r; induction l as [|a l IH]; simpl; intros r H.
  - injection H as <-. reflexivity.
  - inv_bind H. inv_bind H. injection H as <-. simpl. f_equal. eauto.
Qed.

Lemma AttrsDict_Some {F : Type} (accepts : pyval F -> bool) (d d' : pyval F) :
  AttrsDict accepts d = Some d' -> d' = d /\ accepts d = true.
Proof.
  unfold AttrsDict. destruct d; try discriminate.
  destruct (accepts (PDict d)); [|discriminate]. now intros [= <-].
Qed.

(** ** Order and sorting of Python strings *)

Module PyStrFacts.

Import PyStr.

Lemma ascii_compare_refl (a : ascii) : Ascii.compare a a = Eq.
Proof. apply N.compare_refl. Qed.

Lemma ascii_compare_lt_trans (a b c : ascii) :
  Ascii.compare a b = Lt -> Ascii.compare b c = Lt -> Ascii.compare a c = Lt.
Proof.
  unfold Ascii.compare. rewrite !N.compare_lt_iff. apply N.lt_trans.
Qed.

Lemma compare_refl (s : string) : String.compare s s = Eq.
Proof.
  induction s as [|c s IH]; simpl; [reflexivity|].
  now rewrite ascii_compare_refl.
Qed.

Lemma compare_lt_trans (s1 s2 s3 : string) :
  String.compare s1 s2 = Lt -> String.compare s2 s3 = Lt ->
  String.compare s1 s3 = Lt.
Proof.
  revert s2 s3; induction s1 as [|c1 s1 IH]; intros [|c2 s2] [|c3 s3];
    simpl; try congruence.
  destruct (Ascii.compare c1 c2) eqn:E12; try discriminate;
    destruct (Ascii.compare c2 c3) eqn:E23; try discriminate; intros H12 H23.
  - apply Ascii.compare_eq_iff in E12, E23. subst.
    rewrite ascii_compare_refl. eauto.
  - apply Ascii.compare_eq_iff in E12. subst. now rewrite E23.
  - apply Ascii.compare_eq_iff in E23. subst. now rewrite E12.
  - now rewrite (ascii_compare_lt_trans _ _ _ E12 E23).
Qed.

Lemma leb_trans (s1 s2 s3 : string) :
  le s1 s2 -> le s2 s3 -> le s1 s3.
Proof.
  unfold le, String.leb.
  destruct (String.compare s1 s2) eqn:E12; try discriminate; intros _.
  - apply String.compare_eq_iff in E12. now subst.
  - destruct (String.compare s2 s3) eqn:E23; try discriminate; intros _.
    + apply String.compare_eq_iff in E23. subst. now rewrite E12.
    + now rewrite (compare_lt_trans _ _ _ E12 E23).
Qed.

Lemma leb_false_le (s1 s2 : string) : String.leb s1 s2 = false -> le s2 s1.
Proof.
  intros H. destruct (String.leb_total s1 s2) as [H'|H']; [congruence | exact H'].
Qed.

Lemma le_neq_lt (s1 s2 : string) : le s1 s2 -> s1 <> s2 -> lt s1 s2.
Proof.
  unfold le, lt, String.leb, String.ltb.
  destruct (String.compare s1 s2) eqn:E; try congruence.
  apply String.compare_eq_iff in E. congruence.
Qed.

Lemma insert_perm (x : string) (l : list string) : Permutation (x :: l) (insert x l).
Proof.
  induction l as [|y l IH]; simpl; [reflexivity|].
  destruct (String.leb x y); [reflexivity|].
  rewrite perm_swap. now apply perm_skip.
Qed.

Lemma sort_perm (l : list string) : Permutation l (sort l).
Proof.
  induction l as [|x l IH]; simpl; [constructor|].
  rewrite <- insert_perm. now apply perm_skip.
Qed.

Lemma insert_sorted (x : string) (l : list string) :
  StronglySorted le l -> StronglySorted le (insert x l).
Proof.
  induction 1 as [|y l Hs IH Hy]; simpl.
  - repeat constructor.
  - destruct (String.leb x y) eqn:E.
    + constructor; [now constructor|].
      constructor; [exact E|].
      eapply Forall_impl; [|exact Hy]. intros z Hz. now apply leb_trans with y.
    + constructor; [exact IH|].
      apply (Permutation_Forall (insert_perm x l)).
      constructor; [now apply leb_false_le | exact Hy].
Qed.

Lemma sort_sorted (l : list string) : StronglySorted le (sort l).
Proof.
  induction l; simpl; [constructor | now apply insert_sorted].
Qed.

Lemma sorted_nodup_strict (l : list string) :
  StronglySorted le l -> NoDup l -> StronglySorted lt l.
Proof.
  induction 1 as [|x l Hs IH Hx]; intros Hnd; [constructor|].
  inversion Hnd as [|? ? Hnotin Hnd']; subst.
  constructor; [auto|].
  rewrite Forall_forall in *. intros y Hy.
  apply le_neq_lt; [auto|]. intros ->. contradiction.
Qed.

(** Two sorted lists with the same elements are the same list. *)
Lemma sorted_perm_eq (l1 l2 : list string) :
  StronglySorted le l1 -> StronglySorted le l2 -> Permutation l1 l2 -> l1 = l2.
Proof.
  intros H1; revert l2; induction H1 as [|x l1 Hs IH Hx]; intros l2 H2 Hp.
  - apply Permutation_nil in Hp. now subst.
  - destruct H2 as [|y l2 Hs2 Hy].
    + symmetry in Hp. apply Permutation_nil in Hp. discriminate.
    + assert (x = y) as <-.
      { rewrite Forall_forall in Hx, Hy.
        assert (Hin1 : In x (y :: l2))
          by (apply (Permutation_in _ Hp); now left).
        assert (Hin2 : In y (x :: l1))
          by (apply (Permutation_in _ (Permutation_sym Hp)); now left).
        destruct Hin1 as [->|Hin1]; [reflexivity|].
        destruct Hin2 as [->|Hin2]; [reflexivity|].
        apply String.leb_antisym; [now apply Hx | now apply Hy]. }
      f_equal. apply IH; [exact Hs2|]. now apply Permutation_cons_inv with x.
Qed.

Lemma sort_perm_eq (l1 l2 : list string) :
  Permutation l1 l2 -> sort l1 = sort l2.
Proof.
  intros Hp. apply sorted_perm_eq; try apply sort_sorted.
  rewrite <- (sort_perm l1), <- (sort_perm l2). exact Hp.
Qed.

End PyStrFacts.

(** ** Dictionaries *)

Section DictFacts.

Variable F : Type.

Implicit Types (d : dict F) (k : string) (v : pyval F).

Lemma lookup_In d k v : lookup k d = Some v -> In (k, v) d.
Proof.
  induction d as [|[k' v'] d IH]; simpl; [discriminate|].
  destruct (String.eqb_spec k k') as [->|Hne].
  - intros [= ->]. now left.
  - intros H. right. auto.
Qed.

Lemma In_lookup d k v : NoDup (keys d) -> In (k, v) d -> lookup k d = Some v.
Proof.
  induction d as [|[k' v'] d IH]; simpl; [contradiction|].
  intros Hnd [[= -> ->]|Hin].
  - now rewrite String.eqb_refl.
  - inversion Hnd as [|? ? Hnotin Hnd']; subst.
    destruct (String.eqb_spec k k') as [->|Hne]; [|auto].
    exfalso. apply Hnotin. change k' with (fst (k', v)). now apply in_map.
Qed.

Lemma lookup_None d k : lookup k d = None -> ~ In k (keys d).
Proof.
  induction d as [|[k' v'] d IH]; simpl; [tauto|].
  destruct (String.eqb_spec k k') as [->|Hne]; [discriminate|].
  intros H [Heq|Hin]; [congruence | now apply IH].
Qed.

(** A dictionary answers lookups the same way whatever the order in which
    its entries were inserted. *)
Lemma lookup_perm d d' k :
  NoDup (keys d) -> Permutation d d' -> lookup k d = lookup k d'.
Proof.
  intros Hnd Hp.
  assert (Hnd' : NoDup (keys d'))
    by (eapply Permutation_NoDup; [apply Permutation_map; exact Hp | exact Hnd]).
  destruct (lookup k d) as [v|] eqn:E.
  - symmetry. apply In_lookup; [exact Hnd'|].
    apply (Permutation_in _ Hp). now apply lookup_In.
  - destruct (lookup k d') as [v'|] eqn:E'; [|reflexivity].
    exfalso. apply (lookup_None _ _ E).
    apply lookup_In in E'. apply (Permutation_in _ (Permutation_sym Hp)) in E'.
    change k with (fst (k, v')). now apply in_map.
Qed.

Lemma lookup_assoc_set_eq d k v : lookup k (assoc_set k v d) = Some v.
Proof.
  induction d as [|[k' v'] d IH]; simpl.
  - now rewrite String.eqb_refl.
  - destruct (String.eqb_spec k k') as [->|Hne]; simpl.
    + now rewrite String.eqb_refl.
    + destruct (String.eqb_spec k k'); [contradiction | exact IH].
Qed.

Lemma lookup_assoc_set_ne d k k' v :
  k' <> k -> lookup k' (assoc_set k v d) = lookup k' d.
Proof.
  intros Hne. induction d as [|[k0 v0] d IH]; simpl.
  - destruct (String.eqb_spec k' k); [contradiction | reflexivity].
  - destruct (String.eqb_spec k k0) as [->|Hne0]; simpl.
    + destruct (String.eqb_spec k' k0); [contradiction | reflexivity].
    + now rewrite IH.
Qed.

Lemma filterM_perm {A : Type} (f : A -> option bool) (l l' : list A) :
  Permutation l l' ->
  match filterM f l, filterM f l' with
  | Some r, Some r' => Permutation r r'
  | None, None => True
  | _, _ => False
  end.
Proof.
  induction 1 as [|x l l' Hp IH|x y l|l1 l2 l3 H12 IH12 H23 IH23]; simpl.
  - constructor.
  - destruct (f x) as [[|]|]; simpl; [| |exact I];
      destruct (filterM f l), (filterM f l'); simpl; auto.
  - destruct (f x) as [[|]|], (f y) as [[|]|]; simpl; try exact I;
      destruct (filterM f l); simpl; auto; try exact I.
    apply perm_swap.
  - destruct (filterM f l1), (filterM f l2), (filterM f l3);
      try contradiction; auto.
    now transitivity l0.
Qed.

End DictFacts.

(** ** draw_project *)

Section DrawProjectFacts.

Variable F : Type.
Variable float_of_Z : Z -> F.
Variable fdiv : F -> F -> F.
Variable np_median : list F -> F.

Local Abbreviation draw := (draw_project float_of_Z fdiv np_median).

Lemma filterM_ext {A : Type} (f g : A -> option bool) (l : list A) :
  (forall x, f x = g x) -> filterM f l = filterM g l.
Proof.
  intros H. induction l as [|x l IH]; simpl; [reflexivity|].
  now rewrite H, IH.
Qed.

Lemma stored_perm (d d' : dict F) (project : string) (p : list string) :
  NoDup (keys d) -> Permutation d d' ->
  stored (PDict d) project p = stored (PDict d') project p.
Proof.
  intros Hnd Hp. unfold stored. simpl getitem. now rewrite (lookup_perm _ Hnd Hp).
Qed.

Lemma discovered_perm (d d' : dict F) :
  NoDup (keys d) -> Permutation d d' ->
  match discovered (PDict d), discovered (PDict d') with
  | Some r, Some r' => Permutation r r'
  | None, None => True
  | _, _ => False
  end.
Proof.
  intros Hnd Hp. unfold discovered.
  rewrite (filterM_ext
             (fun lab => v <- getitem (PDict d') lab ;; py_in "data" v)
             (fun lab => v <- getitem (PDict d) lab ;; py_in "data" v)).
  - apply filterM_perm. unfold keys. now apply Permutation_map.
  - intros lab. simpl getitem. now rewrite (lookup_perm _ Hnd Hp).
Qed.

(** The plot does not depend on the order in which the levels were put
    into [data]. *)
Lemma draw_project_perm (output : pyval F) (d d' : dict F) (pl : list string) :
  NoDup (keys d) -> Permutation d d' ->
  draw output (PDict d) pl = draw output (PDict d') pl.
Proof.
  intros Hnd Hp. unfold draw_project.
  pose proof (discovered_perm Hnd Hp) as H.
  destruct (discovered (PDict d)) as [labs|], (discovered (PDict d')) as [labs'|];
    try contradiction; [|reflexivity].
  simpl bind. rewrite (PyStrFacts.sort_perm_eq H).
  rewrite (mapM_ext
             (fun project => stored (PDict d) project ["event_rate"; "val"])
             (fun project => stored (PDict d') project ["event_rate"; "val"]))
    by (intros; now apply stored_perm).
  rewrite (mapM_ext
             (fun project =>
                s <- stored (PDict d) project ["event_rate"; "std"] ;;
                div10 float_of_Z fdiv s)
             (fun project =>
                s <- stored (PDict d') project ["event_rate"; "std"] ;;
                div10 float_of_Z fdiv s))
    by (intros; now rewrite (stored_perm _ _ Hnd Hp)).
  rewrite (mapM_ext
             (fun project =>
                r <- stored (PDict d) project ["raw"; "runtimes"] ;;
                median_rate float_of_Z fdiv np_median r)
             (fun project =>
                r <- stored (PDict d') project ["raw"; "runtimes"] ;;
                median_rate float_of_Z fdiv np_median r))
    by (intros; now rewrite (stored_perm _ _ Hnd Hp)).
  reflexivity.
Qed.

Lemma filterM_incl {A : Type} (f : A -> option bool) (l r : list A) :
  filterM f l = Some r -> NoDup l -> NoDup r.
Proof.
  revert r; induction l as [|x l IH]; simpl; intros r H Hnd.
  - injection H as <-. constructor.
  - inv_bind H. inv_bind H. injection H as <-.
    inversion Hnd as [|? ? Hnotin Hnd']; subst.
    destruct x0; [|eauto].
    constructor; [|eauto].
    intros Hin. apply Hnotin. clear - E0 Hin.
    revert x1 E0 Hin. induction l as [|y l IHl]; simpl; intros r E Hin.
    + injection E as <-. contradiction.
    + inv_bind E. inv_bind E. injection E as <-.
      destruct x0; [destruct Hin as [->|Hin]; [now left|]|]; right; eauto.
Qed.

(** The shape of every plot: the sorted discovered labels, with the
    ["default"] entry after a single one. *)
Lemma draw_project_inv (output data : pyval F) (pl : list string) (p : plot F) :
  draw output data pl = Some p ->
  exists labs rate unc med,
    discovered data = Some labs /\
    mapM (fun project => stored data project ["event_rate"; "val"])
         (PyStr.sort labs) = Some rate /\
    mapM (fun project =>
            s <- stored data project ["event_rate"; "std"] ;;
            div10 float_of_Z fdiv s) (PyStr.sort labs) = Some unc /\
    mapM (fun project =>
            r <- stored data project ["raw"; "runtimes"] ;;
            median_rate float_of_Z fdiv np_median r) (PyStr.sort labs) = Some med /\
    ((List.length (PyStr.sort labs) <> 1 /\
      p = {| x_labels := PyStr.sort labs; y_rate := rate;
             y_rate_unc := unc; y_rate_median := med |}) \/
     (List.length (PyStr.sort labs) = 1 /\
      exists tmp val std r m,
        default_entry output pl = Some tmp /\
        getpath tmp ["data"; "event_rate"; "val"] = Some val /\
        getpath tmp ["data"; "event_rate"; "std"] = Some std /\
        getpath tmp ["data"; "raw"; "runtimes"] = Some r /\
        median_rate float_of_Z fdiv np_median r = Some m /\
        p = {| x_labels := PyStr.sort labs ++ ["default"];
               y_rate := rate ++ [val];
               y_rate_unc := unc ++ [std];
               y_rate_median := med ++ [m] |})).
Proof.
  unfold draw_project. intros H.
  inv_bind H. inv_bind H. inv_bind H. inv_bind H.
  exists x, x0, x1, x2. repeat (split; [assumption|]).
  destruct (Nat.eqb_spec (List.length (PyStr.sort x)) 1) as [Hlen|Hlen].
  - right. split; [exact Hlen|].
    inv_bind H. inv_bind H. inv_bind H. inv_bind H. inv_bind H.
    injection H as <-. exists x3, x4, x5, x6, x7. auto 10.
  - left. split; [exact Hlen|]. now injection H as <-.
Qed.

End DrawProjectFacts.

Section DrawProjectClaims.

Variable F : Type.
Variable float_of_Z : Z -> F.
Variable fdiv : F -> F -> F.
Variable np_median : list F -> F.

Local Abbreviation draw := (draw_project float_of_Z fdiv np_median).

(** C1 (amended): [draw_project] lists the discovered levels in strictly
    ascending order of their labels as strings, compared character by
    character, whatever the order in which the levels were put into
    [data]: the plot of a reordered [data] is the same plot. *)
Theorem draw_project_levels_lexicographic
    (output : pyval F) (d d' : dict F) (pl : list string) (p : plot F) :
  NoDup (keys d) ->
  Permutation d d' ->
  draw output (PDict d) pl = Some p ->
  draw output (PDict d') pl = Some p /\
  exists labs,
    discovered (PDict d) = Some labs /\
    StronglySorted PyStr.lt (PyStr.sort labs) /\
    x_labels p =
      PyStr.sort labs ++
      (if Nat.eqb (List.length (PyStr.sort labs)) 1 then ["default"] else []).
Proof.
  intros Hnd Hp H. split.
  - now rewrite <- (@draw_project_perm F float_of_Z fdiv np_median output d d' pl Hnd Hp).
  - destruct (@draw_project_inv F float_of_Z fdiv np_median _ _ _ _ H)
      as (labs & rate & unc & med & Hd & _ & _ & _ & Hshape).
    exists labs. split; [exact Hd|]. split.
    + apply PyStrFacts.sorted_nodup_strict; [apply PyStrFacts.sort_sorted|].
      apply (Permutation_NoDup (PyStrFacts.sort_perm labs)).
      unfold discovered in Hd. exact (filterM_incl _ Hd Hnd).
    + destruct Hshape as [[Hlen ->]|[Hlen (tmp & val & std & r & m & _ & _ & _ & _ & _ & ->)]];
        simpl x_labels.
      * destruct (Nat.eqb_spec (List.length (PyStr.sort labs)) 1);
          [contradiction | now rewrite app_nil_r].
      * now rewrite Hlen.
Qed.

(** C8: the error bar of every discovered level is the stored
    [event_rate.std] divided by 10; the ["default"] entry added after a
    single level carries the stored [event_rate.std] as it is. *)
Theorem draw_project_error_bars
    (output data : pyval F) (pl : list string) (p : plot F) :
  draw output data pl = Some p ->
  exists labs,
    discovered data = Some labs /\
    (forall i project,
        nth_error (PyStr.sort labs) i = Some project ->
        nth_error (x_labels p) i = Some project /\
        exists std x,
          stored data project ["event_rate"; "std"] = Some std /\
          to_float float_of_Z std = Some x /\
          nth_error (y_rate_unc p) i = Some (PFloat (fdiv x (float_of_Z 10)))) /\
    (List.length (PyStr.sort labs) = 1 ->
     exists tmp std,
       default_entry output pl = Some tmp /\
       getpath tmp ["data"; "event_rate"; "std"] = Some std /\
       nth_error (x_labels p) 1 = Some "default" /\
       nth_error (y_rate_unc p) 1 = Some std).
Proof.
  intros H.
  destruct (@draw_project_inv F float_of_Z fdiv np_median _ _ _ _ H)
    as (labs & rate & unc & med & Hd & _ & Hunc & _ & Hshape).
  exists labs. split; [exact Hd|]. split.
  - intros i project Hi.
    destruct (mapM_nth _ _ Hunc _ Hi) as (y & Hy & Hnth).
    inv_bind Hy. unfold div10 in Hy. inv_bind Hy. injection Hy as <-.
    assert (Hlt : i < List.length (PyStr.sort labs))
      by (apply nth_error_Some; congruence).
    destruct Hshape as [[_ ->]|[_ (tmp & val & std & r & m & _ & _ & _ & _ & _ & ->)]];
      simpl x_labels; simpl y_rate_unc.
    + split; [exact Hi|]. exists x, x0. auto.
    + rewrite !nth_error_app1
        by (try rewrite (mapM_length _ _ Hunc); exact Hlt).
      split; [exact Hi|]. exists x, x0. auto.
  - intros Hlen.
    destruct Hshape as [[Hne _]|[_ (tmp & val & std & r & m & Ht & _ & Hs & _ & _ & ->)]];
      [contradiction|].
    exists tmp, std. simpl x_labels; simpl y_rate_unc.
    repeat split; try assumption.
    + rewrite nth_error_app2 by (rewrite Hlen; auto).
      now rewrite Hlen.
    + pose proof (mapM_length _ _ Hunc) as Hl. rewrite Hlen in Hl.
      rewrite nth_error_app2 by (rewrite Hl; auto).
      now rewrite Hl.
Qed.

(** C9: the median overlay of every level, and of the ["default"] entry,
    is [numpy.median] of the constant [n_primaries = 2e6] divided by each
    stored raw runtime; nothing else of the artifact enters it. *)
Theorem draw_project_median_overlay
    (output data : pyval F) (pl : list string) (p : plot F) :
  draw output data pl = Some p ->
  exists labs,
    discovered data = Some labs /\
    (forall i project,
        nth_error (PyStr.sort labs) i = Some project ->
        exists r runtimes,
          stored data project ["raw"; "runtimes"] = Some r /\
          np_array float_of_Z r = Some runtimes /\
          nth_error (y_rate_median p) i =
            Some (np_median (map (fdiv (float_of_Z 2000000)) runtimes))) /\
    (List.length (PyStr.sort labs) = 1 ->
     exists tmp r runtimes,
       default_entry output pl = Some tmp /\
       getpath tmp ["data"; "raw"; "runtimes"] = Some r /\
       np_array float_of_Z r = Some runtimes /\
       nth_error (y_rate_median p) 1 =
         Some (np_median (map (fdiv (float_of_Z 2000000)) runtimes))).
Proof.
  intros H.
  destruct (@draw_project_inv F float_of_Z fdiv np_median _ _ _ _ H)
    as (labs & rate & unc & med & Hd & _ & _ & Hmed & Hshape).
  exists labs. split; [exact Hd|]. split.
  - intros i project Hi.
    destruct (mapM_nth _ _ Hmed _ Hi) as (y & Hy & Hnth).
    inv_bind Hy. unfold median_rate in Hy. inv_bind Hy. injection Hy as <-.
    assert (Hlt : i < List.length med).
    { rewrite (mapM_length _ _ Hmed). apply nth_error_Some; congruence. }
    exists x, x0. repeat split; try assumption.
    destruct Hshape as [[_ ->]|[_ (tmp & val & std & r & m & _ & _ & _ & _ & _ & ->)]];
      simpl y_rate_median; [|rewrite nth_error_app1 by exact Hlt]; exact Hnth.
  - intros Hlen.
    destruct Hshape as [[Hne _]|[_ (tmp & val & std & r & m & Ht & _ & _ & Hr & Hm & ->)]];
      [contradiction|].
    unfold median_rate in Hm. inv_bind Hm. injection Hm as <-.
    exists tmp, r, x. simpl y_rate_median.
    repeat split; try assumption.
    pose proof (mapM_length _ _ Hmed) as Hl. rewrite Hlen in Hl.
    rewrite nth_error_app2 by (rewrite Hl; auto).
    now rewrite Hl.
Qed.

End DrawProjectClaims.

(** *** The sample project *)

Lemma sample_levels_nodup : NoDup (keys Sample.levels).
Proof.
  repeat constructor; simpl; intuition discriminate.
Qed.

Lemma draw_project_levels_lexicographic_witness :
  QFloat.draw_project Sample.output (PDict (rev Sample.levels)) Sample.project_list
    = Some Sample.three_level_plot /\
  exists labs,
    discovered (PDict Sample.levels) = Some labs /\
    StronglySorted PyStr.lt (PyStr.sort labs) /\
    x_labels Sample.three_level_plot =
      PyStr.sort labs ++
      (if Nat.eqb (List.length (PyStr.sort labs)) 1 then ["default"] else []).
Proof.
  apply (@draw_project_levels_lexicographic Q inject_Z Qdiv QFloat.median
           Sample.output Sample.levels (rev Sample.levels) Sample.project_list).
  - exact sample_levels_nodup.
  - apply Permutation_rev.
  - vm_compute. reflexivity.
Defined.

(** C1, as stated, fails: the levels m1, m2 and m16 are listed as m1, m16,
    m2, which is not the ascending order of the m_steps 1, 2, 16. *)
Lemma draw_project_levels_not_numeric :
  exists p,
    QFloat.draw_project Sample.output Sample.three_levels Sample.project_list = Some p /\
    x_labels p = ["m1"; "m16"; "m2"] /\
    ~ Sample.ascending_m_steps (x_labels p).
Proof.
  exists Sample.three_level_plot. split; [vm_compute; reflexivity|].
  split; [reflexivity|].
  intros [steps [Hsteps Hsorted]].
  vm_compute in Hsteps. injection Hsteps as <-.
  inversion Hsorted as [|? ? Htail Hall]; subst.
  inversion Htail as [|? ? _ Hall']; subst.
  inversion Hall' as [|? ? Hlt _]; subst.
  discriminate Hlt.
Qed.

Lemma draw_project_error_bars_witness :
  exists labs,
    discovered Sample.one_level = Some labs /\
    (forall i project,
        nth_error (PyStr.sort labs) i = Some project ->
        nth_error (x_labels Sample.one_level_plot) i = Some project /\
        exists std x,
          stored Sample.one_level project ["event_rate"; "std"] = Some std /\
          to_float inject_Z std = Some x /\
          nth_error (y_rate_unc Sample.one_level_plot) i =
            Some (PFloat (Qdiv x (inject_Z 10)))) /\
    (List.length (PyStr.sort labs) = 1 ->
     exists tmp std,
       default_entry Sample.output Sample.project_list = Some tmp /\
       getpath tmp ["data"; "event_rate"; "std"] = Some std /\
       nth_error (x_labels Sample.one_level_plot) 1 = Some "default" /\
       nth_error (y_rate_unc Sample.one_level_plot) 1 = Some std).
Proof.
  apply (@draw_project_error_bars Q inject_Z Qdiv QFloat.median
           Sample.output Sample.one_level Sample.project_list).
  vm_compute. reflexivity.
Defined.

Lemma draw_project_median_overlay_witness :
  exists labs,
    discovered Sample.three_levels = Some labs /\
    (forall i project,
        nth_error (PyStr.sort labs) i = Some project ->
        exists r runtimes,
          stored Sample.three_levels project ["raw"; "runtimes"] = Some r /\
          np_array inject_Z r = Some runtimes /\
          nth_error (y_rate_median Sample.three_level_plot) i =
            Some (QFloat.median (map (Qdiv (inject_Z 2000000)) runtimes))) /\
    (List.length (PyStr.sort labs) = 1 ->
     exists tmp r runtimes,
       default_entry Sample.output Sample.project_list = Some tmp /\
       getpath tmp ["data"; "raw"; "runtimes"] = Some r /\
       np_array inject_Z r = Some runtimes /\
       nth_error (y_rate_median Sample.three_level_plot) 1 =
         Some (QFloat.median (map (Qdiv (inject_Z 2000000)) runtimes))).
Proof.
  apply (@draw_project_median_overlay Q inject_Z Qdiv QFloat.median
           Sample.output Sample.three_levels Sample.project_list).
  vm_compute. reflexivity.
Defined.

(** ** Updates through a path *)

Section UpdateFacts.

Variable F : Type.

Implicit Types (d : dict F) (k : string) (v t c : pyval F) (p q : list string).

Lemma assoc_set_same d k c : lookup k d = Some c -> assoc_set k c d = d.
Proof.
  induction d as [|[k' v'] d IH]; simpl; [discriminate|].
  destruct (String.eqb_spec k k') as [->|Hne].
  - now intros [= ->].
  - intros H. now rewrite IH.
Qed.

Lemma assoc_set_twice d k x y : assoc_set k x (assoc_set k y d) = assoc_set k x d.
Proof.
  induction d as [|[k' v'] d IH]; simpl.
  - now rewrite String.eqb_refl.
  - destruct (String.eqb_spec k k') as [->|Hne]; simpl.
    + now rewrite String.eqb_refl.
    + destruct (String.eqb_spec k k'); [contradiction | now rewrite IH].
Qed.

Lemma getpath_app v p q :
  getpath v (p ++ q) = (c <- getpath v p ;; getpath c q).
Proof.
  revert v; induction p as [|k p IH]; intros v; simpl; [reflexivity|].
  destruct (getitem v k); simpl; auto.
Qed.

Lemma update_at_app p q (f : pyval F -> option (pyval F)) v :
  update_at (p ++ q) f v = update_at p (update_at q f) v.
Proof.
  revert v; induction p as [|k p IH]; intros v; simpl; [reflexivity|].
  destruct (getitem v k); simpl; [now rewrite IH | reflexivity].
Qed.

Lemma update_at_bind p (f g : pyval F -> option (pyval F)) v :
  update_at p (fun x => y <- f x ;; g y) v =
  (v' <- update_at p f v ;; update_at p g v').
Proof.
  revert v; induction p as [|k p IH]; intros v; simpl; [reflexivity|].
  destruct v as [| | | | | |d]; simpl; try reflexivity.
  destruct (lookup k d) as [c|] eqn:Hc; simpl; [|reflexivity].
  rewrite IH.
  destruct (update_at p f c) as [c1|]; simpl; [|reflexivity].
  rewrite lookup_assoc_set_eq. simpl.
  destruct (update_at p g c1) as [c2|]; simpl; [|reflexivity].
  now rewrite assoc_set_twice.
Qed.

Lemma update_at_ext_at p (f g : pyval F -> option (pyval F)) v t :
  getpath v p = Some t -> f t = g t -> update_at p f v = update_at p g v.
Proof.
  revert v; induction p as [|k p IH]; intros v; simpl.
  - now intros [= ->].
  - destruct (getitem v k) as [c|]; simpl; [|discriminate].
    intros Hc Hfg. now rewrite (IH _ Hc Hfg).
Qed.

Lemma update_at_get p (f : pyval F -> option (pyval F)) v t t' :
  getpath v p = Some t -> f t = Some t' ->
  exists v', update_at p f v = Some v' /\ getpath v' p = Some t'.
Proof.
  revert v; induction p as [|k p IH]; intros v; simpl.
  - intros [= ->] Hf. eauto.
  - destruct v as [| | | | | |d]; simpl; try discriminate.
    destruct (lookup k d) as [c|] eqn:Hc; simpl; [|discriminate].
    intros Hp Hf. destruct (IH _ Hp Hf) as (c' & Hu & Hg).
    rewrite Hu. simpl. eexists; split; [reflexivity|].
    simpl. now rewrite lookup_assoc_set_eq.
Qed.

Lemma update_at_id p v t : getpath v p = Some t -> update_at p Some v = Some v.
Proof.
  revert v; induction p as [|k p IH]; intros v; simpl; [reflexivity|].
  destruct v as [| | | | | |d]; simpl; try discriminate.
  destruct (lookup k d) as [c|] eqn:Hc; simpl; [|discriminate].
  intros Hp. rewrite (IH _ Hp). simpl. now rewrite (assoc_set_same _ _ Hc).
Qed.

Lemma update_at_fails p (f : pyval F -> option (pyval F)) v t :
  getpath v p = Some t -> f t = None -> update_at p f v = None.
Proof.
  intros Hp Hf.
  rewrite (update_at_ext_at p f (fun _ => None) v Hp Hf).
  clear. revert v; induction p as [|k p IH]; intros v; simpl; [reflexivity|].
  destruct (getitem v k); simpl; [now rewrite IH | reflexivity].
Qed.

End UpdateFacts.

(** ** generate_output *)

Section GenerateOutputFacts.

Variable F : Type.
Variable json_load : string -> option (pyval F).

Local Abbreviation visit := (visit_folder json_load).
Local Abbreviation put := (place json_load).

Lemma place_cons file folder rest (t : pyval F) :
  put file (folder :: rest) t = place_step json_load file folder rest t.
Proof. reflexivity. Qed.

(** The loop of [generate_output] over the folders of a file, with its
    cursor [tmp_output] at [cur], updates the object at [cur] as [place]
    does. *)
Lemma visit_folders_place file folders :
  forall (out : pyval F) cur t,
    getpath out cur = Some t ->
    (st <- foldM (visit file) folders (out, cur) ;; Some (fst st)) =
    update_at cur (put file folders) out.
Proof.
  induction folders as [|folder rest IH]; intros out cur t Hcur.
  - simpl. symmetry. exact (update_at_id _ _ Hcur).
  - rewrite (update_at_ext_at cur (put file (folder :: rest))
               (place_step json_load file folder rest) out Hcur
               (place_cons file folder rest t)).
    unfold place_step. simpl foldM.
    set (step := visit file).
    change (step (out, cur) folder) with (visit file (out, cur) folder).
    unfold visit_folder. subst step.
    destruct (String.eqb folder "gen").
    + simpl bind. rewrite (IH _ _ _ Hcur).
      apply update_at_ext_at with t; auto.
    + destruct (String.eqb folder file_string).
      * destruct (json_load file) as [j|] eqn:Hj; simpl bind.
        2:{ symmetry. now apply update_at_fails with t. }
        destruct (setitem t "data" j) as [t'|] eqn:Hset.
        2:{ rewrite (update_at_fails cur (fun t0 => setitem t0 "data" j) out Hcur Hset).
            simpl. symmetry. apply update_at_fails with t; auto.
            now rewrite Hset. }
        destruct (update_at_get cur (fun t0 => setitem t0 "data" j) out Hcur Hset)
          as (out' & Hup & Hcur').
        rewrite Hup. simpl bind. rewrite (IH _ _ _ Hcur').
        transitivity (update_at cur
                        (fun x => y <- setitem x "data" j ;; put file rest y) out).
        { rewrite update_at_bind, Hup. reflexivity. }
        apply update_at_ext_at with t; auto.
      * rewrite Hcur. simpl bind.
        destruct (py_in folder t) as [present|] eqn:Hin; simpl bind.
        2:{ symmetry. apply update_at_fails with t; auto. now rewrite Hin. }
        destruct present.
        -- simpl bind. rewrite Hcur. simpl bind.
           destruct (getitem t folder) as [c|] eqn:Hc; simpl bind.
           2:{ symmetry. apply update_at_fails with t; auto.
               rewrite Hin. simpl. now rewrite Hc. }
           assert (Hcur' : getpath out (cur ++ [folder]) = Some c).
           { rewrite getpath_app, Hcur. simpl. now rewrite Hc. }
           rewrite (IH _ _ _ Hcur'), update_at_app.
           apply update_at_ext_at with t; auto. now rewrite Hin.
        -- destruct (setitem t folder (PDict [])) as [t1|] eqn:Hset.
           2:{ rewrite (update_at_fails cur
                          (fun t0 => setitem t0 folder (PDict [])) out Hcur Hset).
               simpl.
               symmetry. apply update_at_fails with t; auto.
               rewrite Hin. simpl. now rewrite Hset. }
           destruct (update_at_get cur (fun t0 => setitem t0 folder (PDict []))
                       out Hcur Hset) as (out' & Hup & Hcur').
           rewrite Hup. simpl bind. rewrite Hcur'. simpl bind.
           transitivity (update_at cur
                           (fun x => y <- setitem x folder (PDict []) ;;
                                     update_at [folder] (put file rest) y) out).
           2:{ apply update_at_ext_at with t; auto. now rewrite Hin. }
           rewrite update_at_bind, Hup. simpl bind.
           destruct (getitem t1 folder) as [c|] eqn:Hc; simpl bind.
           2:{ symmetry. apply update_at_fails with t1; auto.
               simpl. now rewrite Hc. }
           assert (Hcur'' : getpath out' (cur ++ [folder]) = Some c).
           { rewrite getpath_app, Hcur'. simpl. now rewrite Hc. }
           now rewrite (IH _ _ _ Hcur''), update_at_app.
Qed.

Lemma visit_file_place (out : pyval F) file :
  visit_file json_load out file = put file (PyStr.split "/" file) out.
Proof.
  unfold visit_file.
  now rewrite (visit_folders_place file (PyStr.split "/" file) out [] eq_refl).
Qed.

End GenerateOutputFacts.

Section GenerateOutputClaims.

Variable F : Type.
Variable json_load : string -> option (pyval F).

Local Abbreviation put := (place json_load).
Local Abbreviation no_data := (Forall (fun k : string => k <> "data")).

Lemma folder_tree_root (v : pyval F) : folder_tree v -> exists d, v = PDict d.
Proof. intros H. apply (H [] v); [constructor | reflexivity]. Qed.

Lemma folder_tree_empty : folder_tree (@PDict F []).
Proof.
  intros [|k p] c _; simpl; [intros [= <-]; eauto | discriminate].
Qed.

Lemma folder_tree_child (d : dict F) k c :
  folder_tree (PDict d) -> k <> "data" -> lookup k d = Some c -> folder_tree c.
Proof.
  intros H Hk Hc p c' Hp Hget. apply (H (k :: p) c'); [now constructor|].
  simpl. now rewrite Hc.
Qed.

Lemma folder_tree_set (d : dict F) k c :
  folder_tree (PDict d) -> (k <> "data" -> folder_tree c) ->
  folder_tree (PDict (assoc_set k c d)).
Proof.
  intros H Hc [|k' p] c' Hp; simpl; [intros [= <-]; eauto|].
  inversion Hp as [|? ? Hk' Hp']; subst.
  destruct (String.eqb_spec k' k) as [->|Hne].
  - rewrite lookup_assoc_set_eq. simpl. now apply Hc.
  - rewrite lookup_assoc_set_ne by exact Hne.
    intros Hget. apply (H (k' :: p) c'); [now constructor | exact Hget].
Qed.

Lemma plain_folder_spec k :
  plain_folder k = true -> k <> "data" /\ k <> file_string.
Proof.
  unfold plain_folder. rewrite andb_true_iff, !negb_true_iff, !String.eqb_neq. auto.
Qed.

Lemma key_no_data dirs :
  forallb plain_folder dirs = true -> no_data (filter not_gen dirs).
Proof.
  rewrite forallb_forall, Forall_forall. intros H k Hin.
  apply filter_In in Hin. now apply plain_folder_spec, H.
Qed.

(** What the folders of one result file do to a tree of folders. *)
Lemma place_result_file file j dirs :
  json_load file = Some j ->
  forallb plain_folder dirs = true ->
  forall v : pyval F,
    folder_tree v ->
    exists v',
      put file (dirs ++ [file_string]) v = Some v' /\
      folder_tree v' /\
      getpath v' (filter not_gen dirs ++ ["data"]) = Some j /\
      forall q, no_data q -> q <> filter not_gen dirs ->
                getpath v' (q ++ ["data"]) = getpath v (q ++ ["data"]).
Proof.
  intros Hj. induction dirs as [|c ds IH]; intros Hplain v Hv;
    destruct (folder_tree_root Hv) as [d ->].
  - exists (PDict (assoc_set "data" j d)). simpl app.
    rewrite place_cons. unfold place_step. simpl String.eqb. rewrite Hj. simpl.
    split; [reflexivity|]. split; [apply folder_tree_set; [exact Hv | congruence]|].
    split; [now rewrite lookup_assoc_set_eq|].
    intros [|k q] Hq Hne; [congruence|]. simpl.
    inversion Hq; subst. now rewrite lookup_assoc_set_ne.
  - simpl in Hplain. apply andb_true_iff in Hplain as [Hc Hds].
    destruct (plain_folder_spec _ Hc) as [Hc1 Hc2].
    assert (Hf : filter not_gen (c :: ds) =
                 if String.eqb c "gen" then filter not_gen ds
                 else c :: filter not_gen ds).
    { simpl. unfold not_gen at 1. now destruct (String.eqb c "gen"). }
    rewrite Hf. clear Hf.
    simpl app. rewrite place_cons. unfold place_step.
    destruct (String.eqb c "gen").
    + exact (IH Hds _ Hv).
    + apply String.eqb_neq in Hc2. rewrite Hc2. simpl py_in. unfold has_key.
      destruct (lookup c d) as [ch|] eqn:Hch; simpl bind.
      * rewrite Hch. simpl bind.
        destruct (IH Hds ch (folder_tree_child Hv Hc1 Hch))
          as (ch' & Hput & Htree & Hgot & Hrest).
        rewrite Hput. simpl bind.
        eexists; split; [reflexivity|].
        split; [apply folder_tree_set; auto|].
        split; [simpl; now rewrite lookup_assoc_set_eq|].
        intros [|k q] Hq Hne; simpl.
        -- rewrite lookup_assoc_set_ne; congruence.
        -- inversion Hq; subst.
           destruct (String.eqb_spec k c) as [->|Hkc].
           ++ rewrite lookup_assoc_set_eq, Hch. simpl. apply Hrest; congruence.
           ++ now rewrite lookup_assoc_set_ne.
      * rewrite lookup_assoc_set_eq. simpl bind.
        destruct (IH Hds (PDict []) folder_tree_empty)
          as (ch' & Hput & Htree & Hgot & Hrest).
        rewrite Hput. simpl bind.
        eexists; split; [reflexivity|].
        split; [apply folder_tree_set; auto; apply folder_tree_set; auto;
                intros; apply folder_tree_empty|].
        split; [simpl; now rewrite lookup_assoc_set_eq|].
        intros [|k q] Hq Hne; simpl.
        -- rewrite !lookup_assoc_set_ne; congruence.
        -- inversion Hq; subst.
           destruct (String.eqb_spec k c) as [->|Hkc].
           ++ rewrite lookup_assoc_set_eq, Hch. simpl.
              rewrite Hrest by congruence.
              destruct q; reflexivity.
           ++ now rewrite !lookup_assoc_set_ne.
Qed.

Lemma split_nonempty sep s : PyStr.split sep s <> [].
Proof.
  destruct s as [|c s]; simpl; [discriminate|].
  destruct (Ascii.eqb c sep); [discriminate|].
  destruct (PyStr.split sep s); discriminate.
Qed.

Lemma result_file_split file :
  result_file file = true ->
  PyStr.split "/" file = directories file ++ [file_string] /\
  forallb plain_folder (directories file) = true.
Proof.
  unfold result_file. rewrite andb_true_iff, String.eqb_eq. intros [Hlast Hplain].
  split; [|exact Hplain]. unfold directories. rewrite <- Hlast.
  apply app_removelast_last, split_nonempty.
Qed.

Lemma visit_result_file (out : pyval F) file j :
  result_file file = true -> json_load file = Some j -> folder_tree out ->
  exists out',
    visit_file json_load out file = Some out' /\
    folder_tree out' /\
    getpath out' (key_path file ++ ["data"]) = Some j /\
    forall q, no_data q -> q <> key_path file ->
              getpath out' (q ++ ["data"]) = getpath out (q ++ ["data"]).
Proof.
  intros Hres Hj Hout. destruct (result_file_split _ Hres) as [Hsplit Hplain].
  rewrite visit_file_place, Hsplit.
  exact (place_result_file _ Hj Hplain Hout).
Qed.

Lemma generate_from (files : list string) :
  (forall f, In f files -> result_file f = true /\ json_load f <> None) ->
  forall out0 : pyval F,
    folder_tree out0 ->
    exists out,
      foldM (visit_file json_load) files out0 = Some out /\
      (forall l1 f l2,
          files = l1 ++ f :: l2 ->
          (forall f', In f' l2 -> key_path f' <> key_path f) ->
          getpath out (key_path f ++ ["data"]) = json_load f) /\
      (forall q, no_data q ->
                 (forall f, In f files -> key_path f <> q) ->
                 getpath out (q ++ ["data"]) = getpath out0 (q ++ ["data"])).
Proof.
  induction files as [|f files IH]; intros Hall out0 Hout0.
  - exists out0. split; [reflexivity|]. split; [|reflexivity].
    intros [|? ?] ? ? H; discriminate H.
  - destruct (Hall f (or_introl eq_refl)) as [Hres Hload].
    destruct (json_load f) as [j|] eqn:Hj; [clear Hload | congruence].
    destruct (visit_result_file Hres Hj Hout0) as (out1 & Hvisit & Htree & Hgot & Hrest).
    destruct (IH (fun f' H => Hall f' (or_intror H)) out1 Htree)
      as (out & Hfold & Hfiles & Hother).
    exists out. simpl. rewrite Hvisit. simpl. split; [exact Hfold|].
    assert (Hkey : no_data (key_path f))
      by (apply key_no_data; now apply result_file_split).
    split.
    + intros [|f0 l1] f' l2 Heq Hlater; simpl in Heq; injection Heq as -> ->.
      * rewrite Hj, <- Hgot. apply Hother; [exact Hkey | exact Hlater].
      * now apply (Hfiles l1 f' l2).
    + intros q Hq Hnone. rewrite Hother.
      * apply Hrest; [exact Hq|]. intros ->. now apply (Hnone f (or_introl eq_refl)).
      * exact Hq.
      * intros f' Hin. apply Hnone. now right.
Qed.

Lemma generate_tree (files : list string) :
  (forall f, In f files -> result_file f = true /\ json_load f <> None) ->
  forall out0 out : pyval F,
    folder_tree out0 ->
    foldM (visit_file json_load) files out0 = Some out ->
    folder_tree out.
Proof.
  induction files as [|f files IH]; intros Hall out0 out Hout0 H.
  - now injection H as <-.
  - destruct (Hall f (or_introl eq_refl)) as [Hres Hload].
    destruct (json_load f) as [j|] eqn:Hj; [clear Hload | congruence].
    destruct (visit_result_file Hres Hj Hout0)
      as (out1 & Hvisit & Htree & _).
    simpl in H. rewrite Hvisit in H. simpl in H.
    exact (IH (fun f' Hin => Hall f' (or_intror Hin)) _ _ Htree H).
Qed.

(** The dictionaries on which [db.AttrsDict] does not raise. *)
Variable attrs_accepts : pyval F -> bool.

(** C10 (amended): for every list of result files that can be loaded and
    that lie in no directory called ["data"] or [file_string], the loop of
    [generate_output] does not raise; in the dictionary it builds, the
    parsed content of each file is found under ["data"] at the key path
    of the file's directories without the ["gen"] ones, unless a later
    file of the list has the same key path: the later file replaces the
    earlier one.  [generate_output] returns that dictionary when
    [db.AttrsDict] accepts it, and raises otherwise. *)
Theorem generate_output_stores (files : list string) :
  (forall f, In f files -> result_file f = true /\ json_load f <> None) ->
  exists tree,
    foldM (visit_file json_load) files (PDict []) = Some tree /\
    generate_output json_load attrs_accepts files =
      (if attrs_accepts tree then Some tree else None) /\
    forall l1 f l2,
      files = l1 ++ f :: l2 ->
      (forall f', In f' l2 -> key_path f' <> key_path f) ->
      getpath tree (key_path f ++ ["data"]) = json_load f.
Proof.
  intros Hall.
  destruct (generate_from files Hall folder_tree_empty) as (out & Hout & Hfiles & _).
  exists out. split; [exact Hout|]. split; [|exact Hfiles].
  unfold generate_output. rewrite Hout. simpl.
  destruct (folder_tree_root (generate_tree files Hall folder_tree_empty Hout))
    as [d ->].
  reflexivity.
Qed.

End GenerateOutputClaims.

Lemma sample_found_loadable :
  forall f, In f Sample.found -> result_file f = true /\ Sample.disk f <> None.
Proof.
  intros f [<-|[<-|[<-|[]]]]; (split; [reflexivity | discriminate]).
Qed.

Lemma generate_output_stores_witness :
  exists tree,
    foldM (visit_file Sample.disk) Sample.found (PDict []) = Some tree /\
    QFloat.generate_output Sample.disk Sample.found =
      (if QFloat.plain_keys tree then Some tree else None) /\
    forall l1 f l2,
      Sample.found = l1 ++ f :: l2 ->
      (forall f', In f' l2 -> key_path f' <> key_path f) ->
      getpath tree (key_path f ++ ["data"]) = Sample.disk f.
Proof.
  apply (@generate_output_stores Q Sample.disk QFloat.plain_keys Sample.found).
  exact sample_found_loadable.
Defined.

(** C10, as stated, fails in a directory called ["data"]: the file in it
    is stored under [a.data.data], and the file of the directory above
    then replaces the whole of [a.data], although the two files have
    different key paths. *)
Lemma generate_output_data_directory :
  exists out j,
    QFloat.generate_output Sample.disk
      ["a/data/runtime_estimates.json"; "a/runtime_estimates.json"] = Some out /\
    key_path "a/data/runtime_estimates.json" = ["a"; "data"] /\
    key_path "a/runtime_estimates.json" = ["a"] /\
    Sample.disk "a/data/runtime_estimates.json" = Some j /\
    getpath out (key_path "a/data/runtime_estimates.json" ++ ["data"]) = None.
Proof.
  eexists. eexists. repeat split; vm_compute; reflexivity.
Qed.

(** ** Template Expander *)

Module TemplateFacts.

Import Template.





(** *** Replacement in a text of literals and bracketed placeholders *)

Import TemplateShape.


















Section ExpandFacts.

Variable legacy_tokens : string -> list string.





End ExpandFacts.


Example expand_macro :
  expand legacy macro [("N_PRIMARIES", "1500"); ("N_THREADS", "4")] =
  "/run/beamOn 1500 1500 4 {OTHER}".
Proof. reflexivity. Qed.

End TemplateFacts.

(** ** Effective primaries *)

(** C2: in the [_scaled] modes the effective primaries of m_step [s] are
    [n_primaries * s]; in the [_fix] modes they are [n_primaries] for
    every [s]. *)
Theorem effective_primaries_by_mode (n_primaries s : Z) :
  effective_primaries multithreaded_scaled n_primaries s = (n_primaries * s)%Z /\
  effective_primaries multiprocessed_scaled n_primaries s = (n_primaries * s)%Z /\
  effective_primaries multithreaded_fix n_primaries s = n_primaries /\
  effective_primaries multiprocessed_fix n_primaries s = n_primaries.
Proof. repeat split. Qed.

(** ** Statistics Aggregator *)

Module StatsFacts.

Import Stats.

Local Open Scope R_scope.

Lemma mean_single (x : R) : mean [x] = x.
Proof. unfold mean, sum. simpl. field. Qed.

Lemma pstd_single (x : R) : pstd [x] = 0.
Proof.
  unfold pstd. rewrite mean_single. unfold sum. simpl.
  replace ((x - x) * (x - x) + 0) with 0 by ring.
  unfold Rdiv. rewrite Rmult_0_l. apply sqrt_0.
Qed.

Lemma mean_pair (x y : R) : mean [x; y] = (x + y) / 2.
Proof. unfold mean, sum. simpl. field. Qed.

(** The population standard deviation of two values is half their
    distance. *)
Lemma pstd_pair (x y : R) : x <= y -> pstd [x; y] = (y - x) / 2.
Proof.
  intros Hxy. unfold pstd. rewrite mean_pair. unfold sum. simpl.
  replace (((x - (x + y) / 2) * (x - (x + y) / 2) +
            ((y - (x + y) / 2) * (y - (x + y) / 2) + 0)) / (1 + 1))
    with (((y - x) / 2) * ((y - x) / 2)) by field.
  apply sqrt_square. lra.
Qed.

Lemma pstd_pair_desc (x y : R) : y <= x -> pstd [x; y] = (x - y) / 2.
Proof.
  intros Hxy. unfold pstd. rewrite mean_pair. unfold sum. simpl.
  replace (((x - (x + y) / 2) * (x - (x + y) / 2) +
            ((y - (x + y) / 2) * (y - (x + y) / 2) + 0)) / (1 + 1))
    with (((x - y) / 2) * ((x - y) / 2)) by field.
  apply sqrt_square. lra.
Qed.

Lemma squares_nonneg (m : R) (l : list R) :
  0 <= fold_right Rplus 0 (map (fun x => (x - m) * (x - m)) l).
Proof.
  induction l as [|x l IH]; simpl; [lra|].
  pose proof (Rle_0_sqr (x - m)) as Hx. unfold Rsqr in Hx. lra.
Qed.

Lemma mean_times_length (l : list R) :
  l <> [] -> mean l * INR (List.length l) = fold_right Rplus 0 l.
Proof.
  intros Hl. unfold mean, sum. field.
  apply not_0_INR. destruct l; [congruence | discriminate].
Qed.

Lemma pstd_nonneg (l : list R) : 0 <= pstd l.
Proof. unfold pstd. apply sqrt_pos. Qed.

Lemma pstd_square (l : list R) :
  l <> [] ->
  pstd l * pstd l * INR (List.length l) =
  fold_right Rplus 0 (map (fun x => (x - mean l) * (x - mean l)) l).
Proof.
  intros Hl. unfold pstd, sum.
  assert (Hn : 0 < INR (List.length l)).
  { apply lt_0_INR. destruct l; [congruence | simpl; lia]. }
  rewrite sqrt_sqrt.
  - field. lra.
  - apply Rmult_le_pos; [apply squares_nonneg|].
    left. now apply Rinv_0_lt_compat.
Qed.

(** C3: for every sequence of at least one duration, the aggregator
    returns the mean and the population standard deviation (the sum of
    the squared deviations is divided by the number of values) of the
    durations, and of the rate series [n_primaries / duration].
    Durations 10 and 20 with 100 primaries give mean 15, standard
    deviation 5, rates 10 and 5 with mean 7.5 and standard deviation 2.5;
    a single trial gives standard deviation 0 for both series. *)
Theorem aggregate_statistics :
  (forall (d : R) (ds : list R) (n : Z),
      exists st,
        aggregate (d :: ds) n = inr st /\
        raw st = d :: ds /\
        rates st = map (fun x => IZR n / x) (d :: ds) /\
        stat_mean st * INR (List.length (raw st)) = fold_right Rplus 0 (raw st) /\
        0 <= stat_std st /\
        stat_std st * stat_std st * INR (List.length (raw st)) =
          fold_right Rplus 0
            (map (fun x => (x - stat_mean st) * (x - stat_mean st)) (raw st)) /\
        val (rate st) * INR (List.length (rates st)) = fold_right Rplus 0 (rates st) /\
        0 <= rate_std (rate st) /\
        rate_std (rate st) * rate_std (rate st) * INR (List.length (rates st)) =
          fold_right Rplus 0
            (map (fun x => (x - val (rate st)) * (x - val (rate st))) (rates st))) /\
  (exists st,
      aggregate [10; 20] 100 = inr st /\
      stat_mean st = 15 /\ stat_std st = 5 /\
      rates st = [10; 5] /\ val (rate st) = 7.5 /\ rate_std (rate st) = 2.5) /\
  (forall (d : R) (n : Z),
      exists st,
        aggregate [d] n = inr st /\
        stat_std st = 0 /\ rate_std (rate st) = 0).
Proof.
  split; [|split].
  - intros d ds n. eexists. split; [reflexivity|].
    cbn [raw rates stat_mean stat_std rate val rate_std].
    split; [reflexivity|]. split; [reflexivity|].
    assert (Hd : d :: ds <> []) by discriminate.
    assert (Hr : map (fun x => IZR n / x) (d :: ds) <> []) by discriminate.
    repeat split.
    + now apply mean_times_length.
    + apply pstd_nonneg.
    + now apply pstd_square.
    + now apply mean_times_length.
    + apply pstd_nonneg.
    + now apply pstd_square.
  - eexists. split; [reflexivity|]. simpl.
    assert (Hrates : [100 / 10; 100 / 20] = [10; 5]).
    { f_equal; [lra | f_equal; lra]. }
    rewrite Hrates. repeat split.
    + rewrite mean_pair. lra.
    + rewrite pstd_pair; lra.
    + rewrite mean_pair. lra.
    + rewrite pstd_pair_desc; lra.
  - intros d n. eexists. split; [reflexivity|]. simpl.
    split; apply pstd_single.
Qed.

End StatsFacts.

(** ** Level Executor and Local Orchestrator *)

Module EngineFacts.

Import Stats Engine.

Lemma run_trial_timeout (timeout : R) (p : process) :
  (timeout < wall p)%R -> run_trial timeout p = TimedOut.
Proof.
  intros H. unfold run_trial. destruct (Rlt_dec timeout (wall p)); [reflexivity | contradiction].
Qed.

Lemma run_trial_in_time (timeout : R) (p : process) :
  (wall p <= timeout)%R -> run_trial timeout p = Completed (wall p) (status p).
Proof.
  intros H. unfold run_trial. destruct (Rlt_dec timeout (wall p)); [lra | reflexivity].
Qed.

Section ExecutorFacts.

Variable exec : Z -> Z -> nat -> process.
Variable timeout : R.
Variable keep_failed_exit : bool.

Local Abbreviation level := (execute_level exec timeout keep_failed_exit).
Local Abbreviation levels := (run_levels exec timeout keep_failed_exit).
Local Abbreviation trials := (level_trials exec timeout).

Lemma valid_durations_none (ts : list trial) :
  Forall (fun t => valid_duration keep_failed_exit t = None) ts ->
  valid_durations keep_failed_exit ts = [].
Proof.
  induction 1 as [|t ts Ht _ IH]; simpl; [reflexivity|]. now rewrite Ht.
Qed.

(** A timeout is left out of the statistics under both readings of the
    spec, and a trial that ends with status 0 is always kept. *)
Lemma valid_duration_timeout : valid_duration keep_failed_exit TimedOut = None.
Proof. reflexivity. Qed.

Lemma valid_duration_success (d : R) :
  valid_duration keep_failed_exit (Completed d 0) = Some d.
Proof. reflexivity. Qed.

(** The loop over the trials never stops early: a level runs as many
    trials as the configuration asks for, whatever their outcomes. *)
Lemma level_runs_every_trial (cfg : Config) (s : Z) :
  List.length (trials cfg s) = repetitions cfg.
Proof.
  unfold level_trials. now rewrite length_map, length_seq.
Qed.

(** A trial that ends with a non-zero status is recorded as failed; its
    duration enters the statistics under the first reading of the spec
    and not under the second. *)
Lemma failed_exit_duration (d : R) (st : Z) :
  st <> 0%Z ->
  failed (Completed d st) = true /\
  valid_duration keep_failed_exit (Completed d st) =
    (if keep_failed_exit then Some d else None).
Proof.
  intros Hst. apply Z.eqb_neq in Hst. simpl. now rewrite Hst.
Qed.

(** C4: when no trial of a level leaves a valid duration, the aggregation
    is the error [NoValidTrialsError], not statistics; the level fails
    with it and writes no artifact; and the orchestrator goes on with the
    remaining m_steps, from the store as it was. *)
Theorem no_valid_trials
    (cfg : Config) (st : store) (s : Z) (rest : list Z) :
  satisfied cfg st s = false ->
  dry_run cfg = false ->
  Forall (fun t => valid_duration keep_failed_exit t = None) (trials cfg s) ->
  aggregate (valid_durations keep_failed_exit (trials cfg s))
            (effective_primaries (mode cfg) (n_primaries cfg) s)
    = inl NoValidTrialsError /\
  level cfg st s = (st, Failed NoValidTrialsError) /\
  levels cfg (s :: rest) st =
    (fst (levels cfg rest st),
     (s, Failed NoValidTrialsError) :: snd (levels cfg rest st)).
Proof.
  intros Hsat Hdry Hnone.
  pose proof (valid_durations_none Hnone) as Hv.
  assert (Hlevel : level cfg st s = (st, Failed NoValidTrialsError)).
  { unfold execute_level. now rewrite Hsat, Hdry, Hv. }
  split; [now rewrite Hv|]. split; [exact Hlevel|].
  simpl. rewrite Hlevel. now destruct (levels cfg rest st).
Qed.

(** C5: of three trials, the one that exceeds the timeout is marked
    failed and left out; the statistics of the level are those of the two
    other durations, and the level result records one failed trial. *)
Theorem timed_out_trial_excluded
    (cfg : Config) (st : store) (s : Z) (i : nat) :
  let n := effective_primaries (mode cfg) (n_primaries cfg) s in
  satisfied cfg st s = false ->
  dry_run cfg = false ->
  repetitions cfg = 3 ->
  i < 3 ->
  (timeout < wall (exec s n i))%R ->
  (forall j, j < 3 -> j <> i ->
             (wall (exec s n j) <= timeout)%R /\ status (exec s n j) = 0%Z) ->
  exists r,
    level cfg st s = (write s r st, Done r) /\
    nth_error (trials cfg s) i = Some TimedOut /\
    raw (lr_stats r) =
      map (fun j => wall (exec s n j)) (filter (fun j => negb (Nat.eqb j i)) [0; 1; 2]) /\
    List.length (raw (lr_stats r)) = 2 /\
    aggregate (raw (lr_stats r)) n = inr (lr_stats r) /\
    lr_failed r = 1.
Proof.
  intros n Hsat Hdry Hrep Hi Hout Hin.
  unfold execute_level. rewrite Hsat, Hdry.
  unfold level_trials. rewrite Hrep. fold n. simpl map.
  assert (Hok : forall j, j < 3 -> j <> i ->
            run_trial timeout (exec s n j) = Completed (wall (exec s n j)) 0).
  { intros j Hj Hne. destruct (Hin j Hj Hne) as [Hw Hs].
    rewrite run_trial_in_time by exact Hw. now rewrite Hs. }
  destruct i as [|[|[|i]]]; [| | |lia];
    rewrite (run_trial_timeout _ Hout);
    repeat (rewrite Hok by lia);
    simpl; eexists; repeat split.
Qed.

End ExecutorFacts.

Lemma hanging_trials_invalid (keep : bool) :
  Forall (fun t => valid_duration keep t = None)
         (level_trials SampleRun.hanging SampleRun.timeout SampleRun.cfg 1).
Proof.
  assert (H : run_trial SampleRun.timeout (SampleRun.hanging 1 10 0) = TimedOut)
    by (apply run_trial_timeout; simpl; unfold SampleRun.timeout; lra).
  unfold level_trials. simpl. repeat constructor; exact (f_equal _ H).
Qed.

Lemma no_valid_trials_witness :
  aggregate
    (valid_durations true
       (level_trials SampleRun.hanging SampleRun.timeout SampleRun.cfg 1))
    (effective_primaries (mode SampleRun.cfg) (n_primaries SampleRun.cfg) 1)
    = inl NoValidTrialsError /\
  execute_level SampleRun.hanging SampleRun.timeout true SampleRun.cfg [] 1
    = ([], Failed NoValidTrialsError) /\
  run_levels SampleRun.hanging SampleRun.timeout true SampleRun.cfg (1 :: [2])%Z [] =
    (fst (run_levels SampleRun.hanging SampleRun.timeout true SampleRun.cfg [2%Z] []),
     (1%Z, Failed NoValidTrialsError)
       :: snd (run_levels SampleRun.hanging SampleRun.timeout true SampleRun.cfg [2%Z] [])).
Proof.
  apply (@no_valid_trials SampleRun.hanging SampleRun.timeout true
           SampleRun.cfg [] 1%Z [2%Z]).
  - reflexivity.
  - reflexivity.
  - apply hanging_trials_invalid.
Defined.

Lemma timed_out_trial_excluded_witness :
  exists r,
    execute_level SampleRun.second_hangs SampleRun.timeout false SampleRun.cfg [] 1
      = (write 1 r [], Done r) /\
    nth_error (level_trials SampleRun.second_hangs SampleRun.timeout SampleRun.cfg 1) 1
      = Some TimedOut /\
    raw (lr_stats r) =
      map (fun j => wall (SampleRun.second_hangs 1 10 j))
          (filter (fun j => negb (Nat.eqb j 1)) [0; 1; 2]) /\
    List.length (raw (lr_stats r)) = 2 /\
    aggregate (raw (lr_stats r)) 10 = inr (lr_stats r) /\
    lr_failed r = 1.
Proof.
  apply (@timed_out_trial_excluded SampleRun.second_hangs SampleRun.timeout false
           SampleRun.cfg [] 1%Z 1).
  - reflexivity.
  - reflexivity.
  - reflexivity.
  - lia.
  - simpl. unfold SampleRun.timeout. lra.
  - intros [|[|[|j]]] Hj Hne; try lia; simpl; unfold SampleRun.timeout; split; (lra || reflexivity).
Defined.

End EngineFacts.

(** ** iterate_nested_dict *)

Section IterateFacts.

Variable F : Type.

Implicit Types (d : dict F) (v : pyval F) (key : string) (p : list string).

Lemma iterate_value_dict key d :
  iterate_value key (PDict d) = iterate_nested_dict d key.
Proof.
  unfold iterate_nested_dict.
  induction d as [|[k v] d IH]; simpl in *; [reflexivity | now rewrite IH].
Qed.

Lemma iterate_value_leaf key v :
  (forall d, v <> PDict d) -> iterate_value key v = [(key, v)].
Proof.
  intros H. destruct v; try reflexivity. now destruct (H d).
Qed.

Lemma iterate_value_not_dict v :
  forall key key' v',
    In (key', v') (iterate_value key v) -> forall d, v' <> PDict d.
Proof.
  induction v as [| | | | | |d IH] using pyval_values_ind; intros key key' v';
    try (simpl; intros [[= <- <-]|[]]; discriminate).
  rewrite iterate_value_dict. unfold iterate_nested_dict.
  rewrite in_flat_map. intros [kv [Hin Hy]].
  rewrite Forall_forall in IH. exact (IH kv Hin _ _ _ Hy).
Qed.

(** X1: [iterate_nested_dict] never yields a dictionary, however deep the
    nesting: an empty dictionary below [d] leaves no trace. *)
Theorem iterate_nested_dict_yields_leaves d parent_key key v :
  In (key, v) (iterate_nested_dict d parent_key) -> forall d', v <> PDict d'.
Proof.
  rewrite <- iterate_value_dict. apply iterate_value_not_dict.
Qed.

Lemma distinct_keys_dict d :
  distinct_keys (PDict d) <->
  NoDup (keys d) /\ Forall (fun kv => distinct_keys (snd kv)) d.
Proof.
  change (distinct_keys (PDict d))
    with (NoDup (keys d) /\
          (fix all (d : list (string * pyval F)) : Prop :=
             match d with
             | [] => True
             | (_, v') :: d' => distinct_keys v' /\ all d'
             end) d).
  apply and_iff_compat_l.
  induction d as [|[k v] d IH]; simpl.
  - split; auto.
  - rewrite IH. split.
    + intros [Hv Hd]. now constructor.
    + intros H. inversion H; subst. auto.
Qed.

Lemma iterate_value_paths v :
  forall key key' v',
    distinct_keys v ->
    (In (key', v') (iterate_value key v) <->
     exists p, key' = dotted key p /\ getpath v p = Some v' /\
               forall d, v' <> PDict d).
Proof.
  induction v as [| | | | | |d IH] using pyval_values_ind; intros key key' v' Hd;
    try (simpl; split;
         [ intros [[= <- <-]|[]]; exists []; repeat split; discriminate
         | intros [[|k p] [-> [Hget _]]]; simpl in Hget;
           [injection Hget as <-; now left | discriminate] ]).
  rewrite iterate_value_dict. unfold iterate_nested_dict.
  apply distinct_keys_dict in Hd as [Hnd Hall].
  rewrite Forall_forall in IH, Hall. rewrite in_flat_map. split.
  - intros [[k v] [Hin Hy]]. simpl in Hy.
    apply (IH _ Hin _ _ _ (Hall _ Hin)) in Hy as (p & -> & Hget & Hleaf).
    exists (k :: p). repeat split; [|exact Hleaf].
    simpl. now rewrite (In_lookup _ _ _ Hnd Hin).
  - intros [[|k p] (-> & Hget & Hleaf)]; simpl in Hget.
    + injection Hget as <-. now destruct (Hleaf d).
    + destruct (lookup k d) as [c|] eqn:Hc; [|discriminate].
      apply lookup_In in Hc. exists (k, c). split; [exact Hc|].
      apply (IH _ Hc _ _ _ (Hall _ Hc)). exists p. auto.
Qed.

Lemma iterate_nested_dict_paths_of d key v :
  distinct_keys (PDict d) ->
  In (key, v) (iterate_nested_dict d "") ->
  exists p, key = dotted "" p /\ getpath (PDict d) p = Some v /\
            forall d', v <> PDict d'.
Proof.
  rewrite <- iterate_value_dict. intros Hd. now apply iterate_value_paths.
Qed.

(** X2: the pairs [iterate_nested_dict] yields for a dictionary are those
    of the chains of nested keys that lead to a value which is not a
    dictionary, each under the chain joined with dots (a key after an
    empty prefix stands alone, without a dot). *)
Theorem iterate_nested_dict_paths d key v :
  distinct_keys (PDict d) ->
  (In (key, v) (iterate_nested_dict d "") <->
   exists p, key = dotted "" p /\ getpath (PDict d) p = Some v /\
             forall d', v <> PDict d').
Proof.
  rewrite <- iterate_value_dict. apply iterate_value_paths.
Qed.

End IterateFacts.

Lemma sample_nested_distinct : distinct_keys (PDict SampleOverview.nested).
Proof.
  simpl. repeat split; repeat constructor; simpl; intuition discriminate.
Qed.

Lemma iterate_nested_dict_paths_witness :
  In ("a.b", PInt 1) (iterate_nested_dict SampleOverview.nested "") <->
  exists p, "a.b" = dotted "" p /\
            getpath (PDict SampleOverview.nested) p = Some (PInt 1) /\
            forall d', @PInt Q 1 <> PDict d'.
Proof.
  apply (@iterate_nested_dict_paths Q SampleOverview.nested "a.b" (PInt 1)).
  exact sample_nested_distinct.
Defined.

(** ** generate_project_folders *)

Lemma foldM_fails {A B : Type} (f : A -> B -> option A) (l : list B) (x : B) :
  In x l -> (forall a, f a x = None) -> forall a, foldM f l a = None.
Proof.
  intros Hin Hx. induction l as [|y l IH]; intros a; [contradiction|].
  simpl. destruct Hin as [->|Hin].
  - now rewrite Hx.
  - destruct (f a y); simpl; auto.
Qed.

Lemma foldM_app {A B : Type} (f : A -> B -> option A) (l1 l2 : list B) (a : A) :
  foldM f (l1 ++ l2) a = (a' <- foldM f l1 a ;; foldM f l2 a').
Proof.
  revert a; induction l1 as [|x l1 IH]; intros a; simpl; [reflexivity|].
  destruct (f a x); simpl; auto.
Qed.

Section ProjectFoldersFacts.

Variable F : Type.
Variable attrs_accepts : pyval F -> bool.

Implicit Types (d : dict F) (v t : pyval F) (key : string) (p : list string).

Lemma index_absent (x : string) (l : list string) : ~ In x l -> index x l = None.
Proof.
  induction l as [|y l IH]; simpl; [reflexivity|].
  intros H. destruct (String.eqb_spec y x) as [->|Hne]; [tauto|].
  rewrite IH; tauto.
Qed.

(** X3: a yielded key that holds ["data"] as a piece of text but not as
    one of its dot-separated components makes [generate_project_folders]
    raise ([list.index] finds nothing). *)
Theorem generate_project_folders_no_data_component d key v :
  In (key, v) (iterate_nested_dict d "") ->
  PyStr.contains "data" key = true ->
  ~ In "data" (PyStr.split "." key) ->
  generate_project_folders attrs_accepts (PDict d) = None.
Proof.
  intros Hin Hsub Hcomp. unfold generate_project_folders.
  rewrite (@foldM_fails _ _ (@record F) _ key); [reflexivity| |].
  - change key with (fst (key, v)). now apply in_map.
  - intros a. unfold record, folders_of. rewrite Hsub. simpl negb. cbv iota.
    now rewrite (index_absent _ _ Hcomp).
Qed.

Lemma update_at_inv p (f : pyval F -> option (pyval F)) v v' :
  update_at p f v = Some v' ->
  exists t t', getpath v p = Some t /\ f t = Some t' /\ getpath v' p = Some t'.
Proof.
  revert v v'; induction p as [|k p IH]; intros v v'; simpl.
  - intros H. exists v, v'. auto.
  - destruct v as [| | | | | |d]; simpl; try discriminate.
    destruct (lookup k d) as [c|] eqn:Hc; simpl; [|discriminate].
    intros H. inv_bind H. injection H as <-.
    destruct (IH _ _ E) as (t & t' & Hget & Hf & Hget').
    exists t, t'. simpl. rewrite lookup_assoc_set_eq. auto.
Qed.

Lemma record_from_descend folder_list f rest (pf : pyval F) cur :
  rest <> [] ->
  record_from folder_list (f :: rest) (pf, cur) =
  (t <- getpath pf cur ;;
   present <- py_in f t ;;
   pf' <- (if present then Some pf
           else update_at cur (fun t => setitem t f (PDict [])) pf) ;;
   t' <- getpath pf' cur ;;
   _ <- getitem t' f ;;
   record_from folder_list rest (pf', cur ++ [f])).
Proof.
  destruct rest; [congruence | reflexivity].
Qed.

Lemma record_from_last folder_list pre x :
  forall (pf : pyval F) cur st',
    record_from folder_list (pre ++ [x]) (pf, cur) = Some st' ->
    snd st' = cur ++ pre /\
    getpath (fst st') (cur ++ pre ++ [x]) = Some (PStr (last folder_list "")).
Proof.
  induction pre as [|f pre IH]; intros pf cur st' H.
  - simpl in H. inv_bind H. injection H as <-. simpl.
    split; [now rewrite app_nil_r|].
    destruct (update_at_inv _ _ _ E) as (t & t' & Hget & Hset & Hget').
    rewrite getpath_app, Hget'. simpl.
    destruct t; try discriminate. injection Hset as <-. simpl.
    now rewrite lookup_assoc_set_eq.
  - change ((f :: pre) ++ [x]) with (f :: (pre ++ [x])) in H.
    rewrite record_from_descend in H by (now destruct pre).
    do 5 inv_bind H. apply IH in H as [Hcur Hget].
    split.
    + rewrite Hcur, <- app_assoc. reflexivity.
    + rewrite <- app_assoc in Hget. exact Hget.
Qed.

(** X4: once a key is recorded, the folders before its first ["data"]
    lead, in [project_folders], to the name of the last of them. *)
Theorem record_stores_last_folder (pf pf' : pyval F) key pre x :
  PyStr.contains "data" key = true ->
  folders_of key = Some (pre ++ [x]) ->
  record pf key = Some pf' ->
  getpath pf' (pre ++ [x]) = Some (PStr x).
Proof.
  intros Hsub Hfolders H. unfold record in H. rewrite Hsub, Hfolders in H.
  simpl in H. inv_bind H. injection H as <-.
  destruct x0 as [pf1 cur]. apply record_from_last in E as [_ Hget].
  simpl in *. now rewrite last_last in Hget.
Qed.

Lemma getpath_child v p k c :
  getpath v (p ++ [k]) = Some c ->
  exists d, getpath v p = Some (PDict d) /\ lookup k d = Some c.
Proof.
  rewrite getpath_app. intros H. inv_bind H. simpl in H.
  destruct x; try discriminate. simpl in H.
  destruct (lookup k d) as [c'|] eqn:Hc; [|discriminate].
  injection H as <-. eauto.
Qed.

Lemma record_from_through_leaf folder_list pre x y rest s :
  forall (pf : pyval F) cur,
    getpath pf (cur ++ pre ++ [x]) = Some (PStr s) ->
    record_from folder_list (pre ++ x :: y :: rest) (pf, cur) = None.
Proof.
  induction pre as [|f pre IH]; intros pf cur Hleaf.
  - simpl app in *. destruct (getpath_child _ _ _ Hleaf) as (d & Hcur & Hx).
    simpl. rewrite Hcur. simpl. unfold has_key. rewrite Hx. simpl.
    rewrite Hcur. simpl. rewrite Hx. simpl.
    destruct rest as [|z rest].
    + now rewrite (update_at_fails (cur ++ [x])
                     (fun t => setitem t y (PStr (last folder_list ""))) pf Hleaf).
    + rewrite Hleaf. simpl. destruct (PyStr.contains y s); simpl.
      * now rewrite Hleaf.
      * now rewrite (update_at_fails (cur ++ [x])
                       (fun t => setitem t y (PDict [])) pf Hleaf).
  - change ((f :: pre) ++ x :: y :: rest) with (f :: (pre ++ x :: y :: rest)).
    rewrite record_from_descend by (now destruct pre).
    assert (Hleaf' : getpath pf ((cur ++ [f]) ++ pre ++ [x]) = Some (PStr s))
      by (now rewrite <- app_assoc).
    rewrite getpath_app in Hleaf'. inv_bind Hleaf'.
    destruct (getpath_child _ _ _ E) as (d & Hcur & Hf).
    rewrite Hcur. simpl. unfold has_key. rewrite Hf. simpl.
    rewrite Hcur. simpl. rewrite Hf. simpl.
    apply IH.
    rewrite getpath_app, E. exact Hleaf'.
Qed.

(** X5: a key whose folders go through a name that [project_folders]
    already holds as a level makes the loop raise: the level is a string,
    and it can neither be indexed by a name nor assigned to. *)
Theorem record_through_level (pf : pyval F) key pre x y rest s :
  PyStr.contains "data" key = true ->
  folders_of key = Some (pre ++ x :: y :: rest) ->
  getpath pf (pre ++ [x]) = Some (PStr s) ->
  record pf key = None.
Proof.
  intros Hsub Hfolders Hleaf. unfold record. rewrite Hsub, Hfolders. simpl.
  now rewrite (record_from_through_leaf _ pre x y rest pf [] Hleaf).
Qed.

End ProjectFoldersFacts.

Section NamesTreeFacts.

Variable F : Type.
Variable attrs_accepts : pyval F -> bool.

Implicit Types (d : dict F) (v t : pyval F) (key : string) (p : list string).

Lemma In_assoc_set d k x k' v' :
  In (k', v') (assoc_set k x d) -> (k' = k /\ v' = x) \/ In (k', v') d.
Proof.
  induction d as [|[k0 v0] d IH]; simpl.
  - intros [[= <- <-]|[]]. auto.
  - destruct (String.eqb_spec k k0) as [->|Hne]; simpl.
    + intros [[= <- <-]|Hin]; auto.
    + intros [Heq|Hin]; [auto|]. destruct (IH Hin); auto.
Qed.

Lemma names_tree_set d k x :
  names_tree (PDict d) -> x = PStr k \/ names_tree x ->
  names_tree (PDict (assoc_set k x d)).
Proof.
  intros Hd Hx. inversion Hd as [d0 Hall]; subst. constructor.
  intros k' v' Hin. apply In_assoc_set in Hin as [[-> ->]|Hin]; auto.
Qed.

Lemma names_tree_update p k x :
  forall v v',
    names_tree v -> x = PStr k \/ names_tree x ->
    update_at p (fun t => setitem t k x) v = Some v' ->
    names_tree v'.
Proof.
  induction p as [|k0 p IH]; intros v v' Hv Hx; simpl.
  - inversion Hv as [d Hall]; subst. simpl. intros [= <-].
    now apply names_tree_set.
  - inversion Hv as [d Hall]; subst. simpl.
    destruct (lookup k0 d) as [c|] eqn:Hc; simpl; [|discriminate].
    intros H. inv_bind H. injection H as <-.
    apply names_tree_set; [exact Hv|]. right.
    destruct (Hall _ _ (lookup_In _ _ Hc)) as [->|Hc'].
    + destruct p; simpl in E; discriminate.
    + exact (IH _ _ Hc' Hx E).
Qed.

Lemma names_tree_record_from folder_list rest :
  forall st st' : pyval F * list string,
    (rest <> [] -> last rest "" = last folder_list "") ->
    names_tree (fst st) ->
    record_from folder_list rest st = Some st' ->
    names_tree (fst st').
Proof.
  induction rest as [|f rest IH]; intros [pf cur] st' Hlast Hpf H.
  - injection H as <-. exact Hpf.
  - destruct rest as [|g rest].
    + simpl in H. inv_bind H. injection H as <-. simpl in *.
      eapply names_tree_update; [exact Hpf | | exact E].
      left. rewrite <- Hlast by discriminate. reflexivity.
    + rewrite record_from_descend in H by discriminate.
      do 5 inv_bind H. apply IH in H; [exact H| |].
      * intros _. apply Hlast. discriminate.
      * simpl in *. destruct x0.
        -- now injection E1 as <-.
        -- eapply names_tree_update; [exact Hpf | | exact E1].
           right. constructor. intros ? ? [].
Qed.

Lemma names_tree_record (pf pf' : pyval F) key :
  names_tree pf -> record pf key = Some pf' -> names_tree pf'.
Proof.
  intros Hpf H. unfold record in H.
  destruct (negb (PyStr.contains "data" key)); [now injection H as <-|].
  do 2 inv_bind H. injection H as <-.
  eapply names_tree_record_from; [| |exact E0]; [reflexivity | exact Hpf].
Qed.

Lemma names_tree_getpath p :
  forall v k c,
    names_tree v -> getpath v (p ++ [k]) = Some c ->
    c = PStr k \/ names_tree c.
Proof.
  induction p as [|k0 p IH]; intros v k c Hv; inversion Hv as [d Hall]; subst; simpl.
  - destruct (lookup k d) as [c'|] eqn:Hc; simpl; [|discriminate].
    intros [= <-]. exact (Hall _ _ (lookup_In _ _ Hc)).
  - destruct (lookup k0 d) as [c'|] eqn:Hc; simpl; [|discriminate].
    destruct (Hall _ _ (lookup_In _ _ Hc)) as [->|Hc'].
    + destruct p; simpl; discriminate.
    + now apply IH.
Qed.

(** X6: in the dictionary [generate_project_folders] returns, whatever is
    found under a name is either that very name, as a string, or another
    dictionary: a level is always stored as its own name. *)
Theorem generate_project_folders_names (output pf : pyval F) :
  generate_project_folders attrs_accepts output = Some pf ->
  forall p k c,
    getpath pf (p ++ [k]) = Some c -> c = PStr k \/ exists d, c = PDict d.
Proof.
  intros H. assert (Hpf : names_tree pf).
  { unfold generate_project_folders in H. destruct output; try discriminate.
    inv_bind H. apply AttrsDict_Some in H as [-> _]. rename E into H.
    assert (Hfold : forall l (a b : pyval F),
               names_tree a -> foldM (@record F) l a = Some b -> names_tree b).
    { induction l as [|key l IH]; simpl; intros a b Ha Hf.
      - now injection Hf as <-.
      - inv_bind Hf. exact (IH _ _ (names_tree_record _ Ha E) Hf). }
    apply (Hfold _ _ _ (names_tree_dict [] (fun _ _ H0 => match H0 with end)) H). }
  intros p k c Hget.
  destruct (names_tree_getpath _ _ Hpf Hget) as [->|Hc]; [now left|].
  right. inversion Hc. eauto.
Qed.

End NamesTreeFacts.

Lemma generate_project_folders_no_data_component_witness :
  generate_project_folders QFloat.plain_keys SampleOverview.metadata_only = None.
Proof.
  apply (@generate_project_folders_no_data_component Q QFloat.plain_keys
           [("a", PDict [("metadata", PInt 1)])] "a.metadata" (PInt 1)).
  - simpl. now left.
  - reflexivity.
  - simpl. intuition discriminate.
Defined.

Lemma record_stores_last_folder_witness :
  getpath (PDict [("a", PDict [("b", @PStr Q "b")])]) (["a"] ++ ["b"])
    = Some (PStr "b").
Proof.
  apply (@record_stores_last_folder Q (PDict []) _ "a.b.data.x" ["a"] "b");
    reflexivity.
Defined.

Lemma record_through_level_witness :
  record (PDict [("a", @PStr Q "a")]) "a.b.data.x" = None.
Proof.
  apply (@record_through_level Q _ "a.b.data.x" [] "a" "b" [] "a"); reflexivity.
Defined.

Lemma generate_project_folders_names_witness :
  @PStr Q "b" = PStr "b" \/ exists d, @PStr Q "b" = PDict d.
Proof.
  apply (@generate_project_folders_names Q QFloat.plain_keys
           (PDict [("a", PDict [("b", PDict [("data", PInt 1)])])])
           (PDict [("a", PDict [("b", PStr "b")])]) eq_refl ["a"] "b" (PStr "b")).
  reflexivity.
Defined.

(** ** generate_overview_plots *)

Lemma mapM_fails {A B : Type} (f : A -> option B) (l : list A) (x : A) :
  In x l -> f x = None -> mapM f l = None.
Proof.
  intros Hin Hx. induction l as [|y l IH]; [contradiction|].
  simpl. destruct Hin as [->|Hin].
  - now rewrite Hx.
  - destruct (f y); simpl; [|reflexivity]. now rewrite IH.
Qed.

Lemma add_project_nodup (keys : list string) :
  forall projects, NoDup projects -> NoDup (fold_left add_project keys projects).
Proof.
  induction keys as [|key keys IH]; intros projects Hnd; [exact Hnd|].
  simpl. apply IH. unfold add_project.
  destruct (in_dec (list_eq_dec string_dec) (project_of key) projects) as [|Hnotin];
    [exact Hnd|].
  apply NoDup_app; [exact Hnd | repeat constructor; intros [] |].
  intros a Ha [<-|[]]. contradiction.
Qed.

Lemma add_project_In (keys : list string) :
  forall projects project,
    In project (fold_left add_project keys projects) <->
    In project projects \/ exists key, In key keys /\ project_of key = project.
Proof.
  induction keys as [|key keys IH]; intros projects project; simpl.
  - split; [auto | intros [H|[key [[] _]]]; exact H].
  - rewrite IH. unfold add_project at 1.
    destruct (in_dec (list_eq_dec string_dec) (project_of key) projects) as [Hin|Hnotin].
    + split.
      * intros [H|[k [Hk Hp]]]; [auto | right; exists k; auto].
      * intros [H|[k [[->|Hk] Hp]]]; [auto | subst; auto | right; exists k; auto].
    + rewrite in_app_iff. simpl. split.
      * intros [[H|[H|[]]]|[k [Hk Hp]]]; [auto | right; exists key; auto
                                         | right; exists k; auto].
      * intros [H|[k [[->|Hk] Hp]]]; [auto | subst; auto | right; exists k; auto].
Qed.

Section OverviewFacts.

Variable F : Type.
Variable float_of_Z : Z -> F.
Variable fdiv : F -> F -> F.
Variable np_median : list F -> F.

Local Abbreviation draw := (draw_project float_of_Z fdiv np_median).
Variable attrs_accepts : pyval F -> bool.

Local Abbreviation overview :=
  (generate_overview_plots float_of_Z fdiv np_median attrs_accepts).

(** X7: [generate_overview_plots] draws one plot per project, in the
    order in which the projects first appear among the keys of
    [project_folders]; the projects are those keys without their last
    component, each taken once; and every project is looked up in
    [output] before it is drawn. *)
Theorem generate_overview_plots_projects
    (global_output output : pyval F) (plots : list (plot F)) :
  overview global_output output = Some plots ->
  exists d projects,
    generate_project_folders attrs_accepts output = Some (PDict d) /\
    projects_of (PDict d) = Some projects /\
    NoDup projects /\
    (forall project,
        In project projects <->
        exists key v, In (key, v) (iterate_nested_dict d "") /\
                      project_of key = project) /\
    List.length plots = List.length projects /\
    forall i project,
      nth_error projects i = Some project ->
      exists data p,
        getpath output project = Some data /\
        draw global_output data project = Some p /\
        nth_error plots i = Some p.
Proof.
  unfold generate_overview_plots. intros H. do 2 inv_bind H.
  destruct x as [| | | | | |d]; try discriminate. injection E0 as <-.
  exists d, (fold_left add_project (map fst (iterate_nested_dict d "")) []).
  split; [exact E|]. split; [reflexivity|].
  split; [apply add_project_nodup; constructor|]. split.
  - intros project. rewrite add_project_In. split.
    + intros [[]|[key [Hin Hp]]]. apply in_map_iff in Hin as [[k v] [<- Hin]].
      exists k, v. auto.
    + intros [key [v [Hin Hp]]]. right. exists key. split; [|exact Hp].
      change key with (fst (key, v)). now apply in_map.
  - split; [exact (mapM_length _ _ H)|].
    intros i project Hi. destruct (mapM_nth _ _ H _ Hi) as (p & Hp & Hnth).
    inv_bind Hp. eauto.
Qed.

(** X8: the label list and the three series [draw_project] hands to
    matplotlib always have the same length. *)
Theorem draw_project_series_lengths
    (output data : pyval F) (pl : list string) (p : plot F) :
  draw output data pl = Some p ->
  List.length (y_rate p) = List.length (x_labels p) /\
  List.length (y_rate_unc p) = List.length (x_labels p) /\
  List.length (y_rate_median p) = List.length (x_labels p).
Proof.
  intros H.
  destruct (@draw_project_inv F float_of_Z fdiv np_median _ _ _ _ H)
    as (labs & rate & unc & med & _ & Hrate & Hunc & Hmed & Hshape).
  apply mapM_length in Hrate, Hunc, Hmed.
  destruct Hshape as [[_ ->]|[_ (tmp & val & std & r & m & _ & _ & _ & _ & _ & ->)]];
    simpl; rewrite ?length_app; simpl; auto.
Qed.

Lemma np_flatten_list (l : list (pyval F)) :
  np_flatten float_of_Z (PList l) =
  (rows <- mapM (np_flatten float_of_Z) l ;;
   match rows with
   | [] => Some ([0], [])
   | (shape, _) :: _ =>
       if forallb (fun r => same_shape (fst r) shape) rows
       then Some (List.length rows :: shape, List.concat (map snd rows))
       else None
   end).
Proof.
  simpl. f_equal.
  induction l as [|x l IH]; simpl; [reflexivity|].
  destruct (np_flatten float_of_Z x); simpl; [|reflexivity]. now rewrite IH.
Qed.

Lemma np_array_no_array (r : pyval F) :
  no_array r = true \/
  (exists l x, r = PList l /\ In x l /\ no_array x = true) ->
  np_array float_of_Z r = None.
Proof.
  assert (Hscalar : forall v, no_array v = true -> np_flatten float_of_Z v = None)
    by (intros v Hv; destruct v; try discriminate; reflexivity).
  unfold np_array. intros [Hr|(l & x & -> & Hin & Hx)].
  - now rewrite Hscalar.
  - rewrite np_flatten_list, (mapM_fails _ _ _ Hin (Hscalar _ Hx)). reflexivity.
Qed.

(** X9: one discovered level whose artifact lacks [event_rate.val],
    [event_rate.std] or [raw.runtimes], or whose [event_rate.std] is not
    a number, or whose [raw.runtimes] is, or holds as an element, [None],
    a string or a dictionary, makes [draw_project] raise: nothing is
    drawn for the other levels either. *)
Theorem draw_project_malformed_level
    (output data : pyval F) (pl labs : list string) (lab : string) :
  discovered data = Some labs ->
  In lab labs ->
  stored data lab ["event_rate"; "val"] = None \/
  stored data lab ["event_rate"; "std"] = None \/
  (exists std, stored data lab ["event_rate"; "std"] = Some std /\
               is_number std = false) \/
  stored data lab ["raw"; "runtimes"] = None \/
  (exists r, stored data lab ["raw"; "runtimes"] = Some r /\
             (no_array r = true \/
              exists l x, r = PList l /\ In x l /\ no_array x = true)) ->
  draw output data pl = None.
Proof.
  intros Hd Hin Hbad. unfold draw_project. rewrite Hd. simpl bind.
  assert (Hin' : In lab (PyStr.sort labs))
    by (apply (Permutation_in _ (PyStrFacts.sort_perm labs)); exact Hin).
  assert (Hstd : forall std, is_number std = false ->
                             div10 float_of_Z fdiv std = None)
    by (intros std Hn; destruct std; try discriminate; reflexivity).
  destruct Hbad as [Hbad|[Hbad|[(std & Hs & Hn)|[Hbad|(r & Hr & Hn)]]]].
  - now rewrite (mapM_fails _ _ _ Hin' Hbad).
  - destruct (mapM _ _); simpl; [|reflexivity].
    rewrite (mapM_fails _ _ lab Hin'); [reflexivity|]. now rewrite Hbad.
  - destruct (mapM _ _); simpl; [|reflexivity].
    rewrite (mapM_fails _ _ lab Hin'); [reflexivity|].
    rewrite Hs. simpl. now apply Hstd.
  - destruct (mapM _ _); simpl; [|reflexivity].
    destruct (mapM _ _); simpl; [|reflexivity].
    rewrite (mapM_fails _ _ lab Hin'); [reflexivity|]. now rewrite Hbad.
  - destruct (mapM _ _); simpl; [|reflexivity].
    destruct (mapM _ _); simpl; [|reflexivity].
    rewrite (mapM_fails _ _ lab Hin'); [reflexivity|].
    rewrite Hr. simpl. unfold median_rate.
    now rewrite (np_array_no_array Hn).
Qed.

(** X10: unless exactly one level is discovered, the labels and series
    [draw_project] hands to matplotlib depend neither on the notebook's
    global [output] nor on the argument [project_list] (which then only
    names the figure). *)
Theorem draw_project_several_levels
    (output1 output2 data : pyval F) (pl1 pl2 labs : list string) :
  discovered data = Some labs ->
  List.length labs <> 1 ->
  draw output1 data pl1 = draw output2 data pl2.
Proof.
  intros Hd Hlen. unfold draw_project. rewrite Hd. simpl bind.
  rewrite <- (Permutation_length (PyStrFacts.sort_perm labs)).
  destruct (Nat.eqb_spec (List.length labs) 1); [contradiction | reflexivity].
Qed.

(** X11: with exactly one level discovered, a [project_list] of fewer
    than two names makes [draw_project] raise: the comparison entry is
    looked up under [project_list[1]]. *)
Theorem draw_project_single_level_short_list
    (output data : pyval F) (pl labs : list string) :
  discovered data = Some labs ->
  List.length labs = 1 ->
  List.length pl < 2 ->
  draw output data pl = None.
Proof.
  intros Hd Hlen Hpl. unfold draw_project. rewrite Hd. simpl bind.
  rewrite <- (Permutation_length (PyStrFacts.sort_perm labs)), Hlen.
  do 3 (destruct (mapM _ _); simpl; [|reflexivity]).
  assert (Hnth : nth_error pl 1 = None) by (apply nth_error_None; lia).
  unfold default_entry. rewrite Hnth.
  now destruct (getitem output "simple").
Qed.

End OverviewFacts.

(** ** generate_output: failures, repetitions, the place of ["gen"] *)

Section GenerateOutputMore.

Variable F : Type.
Variable json_load : string -> option (pyval F).

Local Abbreviation put := (place json_load).
Variable attrs_accepts : pyval F -> bool.

Local Abbreviation generate := (generate_output json_load attrs_accepts).

Lemma place_unfold file folder rest (t : pyval F) :
  put file (folder :: rest) t =
  if String.eqb folder "gen" then put file rest t
  else if String.eqb folder file_string then
    j <- json_load file ;; t' <- setitem t "data" j ;; put file rest t'
  else
    present <- py_in folder t ;;
    t1 <- (if present then Some t else setitem t folder (PDict [])) ;;
    c <- getitem t1 folder ;;
    c' <- put file rest c ;;
    setitem t1 folder c'.
Proof. reflexivity. Qed.

Lemma place_unloadable file dirs :
  json_load file = None ->
  forallb plain_folder dirs = true ->
  forall v : pyval F, folder_tree v -> put file (dirs ++ [file_string]) v = None.
Proof.
  intros Hj. induction dirs as [|c ds IH]; intros Hplain v Hv;
    destruct (folder_tree_root Hv) as [d ->]; simpl app; rewrite place_unfold.
  - simpl String.eqb. now rewrite Hj.
  - simpl in Hplain. apply andb_true_iff in Hplain as [Hc Hds].
    destruct (plain_folder_spec _ Hc) as [Hc1 Hc2].
    destruct (String.eqb c "gen"); [exact (IH Hds _ Hv)|].
    apply String.eqb_neq in Hc2. rewrite Hc2. simpl py_in. unfold has_key.
    destruct (lookup c d) as [ch|] eqn:Hch; simpl bind.
    + rewrite Hch. simpl bind.
      now rewrite (IH Hds ch (folder_tree_child Hv Hc1 Hch)).
    + rewrite lookup_assoc_set_eq. simpl bind.
      now rewrite (IH Hds (PDict []) (@folder_tree_empty F)).
Qed.

(** X12: one result file that cannot be read or parsed makes
    [generate_output] raise, whatever the other files hold: no partial
    dictionary is returned. *)
Theorem generate_output_unloadable (files : list string) (f : string) :
  (forall f', In f' files -> result_file f' = true) ->
  In f files ->
  json_load f = None ->
  generate files = None.
Proof.
  intros Hall Hin Hf. unfold generate_output.
  assert (H : forall out0 : pyval F,
             folder_tree out0 -> foldM (visit_file json_load) files out0 = None).
  { induction files as [|f0 files IH]; intros out0 Hout0; [contradiction|].
    simpl. pose proof (Hall f0 (or_introl eq_refl)) as Hres.
    destruct (json_load f0) as [j|] eqn:Hj.
    - destruct (visit_result_file json_load _ Hres Hj Hout0)
        as (out1 & Hvisit & Htree & _).
      rewrite Hvisit. simpl. apply IH; [| |exact Htree].
      + intros f' Hin'. apply Hall. now right.
      + destruct Hin as [->|Hin]; [congruence | exact Hin].
    - destruct (result_file_split _ Hres) as [Hsplit Hplain].
      rewrite visit_file_place, Hsplit.
      now rewrite (@place_unloadable f0 (directories f0) Hj Hplain out0 Hout0). }
  now rewrite (H _ (@folder_tree_empty F)).
Qed.

Lemma place_twice file j dirs :
  json_load file = Some j ->
  forallb plain_folder dirs = true ->
  forall v v' : pyval F,
    folder_tree v ->
    put file (dirs ++ [file_string]) v = Some v' ->
    put file (dirs ++ [file_string]) v' = Some v'.
Proof.
  intros Hj. induction dirs as [|c ds IH]; intros Hplain v v' Hv;
    destruct (folder_tree_root Hv) as [d ->]; simpl app; rewrite !place_unfold.
  - simpl String.eqb. rewrite Hj. simpl. intros [= <-]. simpl.
    now rewrite assoc_set_twice.
  - simpl in Hplain. apply andb_true_iff in Hplain as [Hc Hds].
    destruct (plain_folder_spec _ Hc) as [Hc1 Hc2].
    destruct (String.eqb c "gen"); [exact (IH Hds _ _ Hv)|].
    apply String.eqb_neq in Hc2. rewrite Hc2. simpl py_in. unfold has_key.
    destruct (lookup c d) as [ch|] eqn:Hch; simpl bind.
    + rewrite Hch. simpl bind. intros H. inv_bind H. injection H as <-.
      simpl. unfold has_key. rewrite !lookup_assoc_set_eq. simpl.
      rewrite lookup_assoc_set_eq. simpl.
      rewrite (IH Hds _ _ (folder_tree_child Hv Hc1 Hch) E). simpl.
      now rewrite assoc_set_twice.
    + rewrite lookup_assoc_set_eq. simpl bind. intros H. inv_bind H.
      injection H as <-.
      simpl. unfold has_key. rewrite !lookup_assoc_set_eq. simpl.
      rewrite lookup_assoc_set_eq. simpl.
      rewrite (IH Hds _ _ (@folder_tree_empty F) E). simpl.
      now rewrite !assoc_set_twice.
Qed.

(** X13: a result file listed twice in a row counts once: the second
    visit finds every folder in place and stores the same content
    again. *)
Theorem generate_output_repeated_file (l1 l2 : list string) (f : string) :
  (forall f', In f' (l1 ++ [f]) -> result_file f' = true /\ json_load f' <> None) ->
  generate (l1 ++ f :: f :: l2) = generate (l1 ++ f :: l2).
Proof.
  intros Hall. unfold generate_output. rewrite !foldM_app.
  destruct (foldM (visit_file json_load) l1 (PDict [])) as [out|] eqn:Hl1;
    [|reflexivity].
  simpl bind.
  assert (Hout : folder_tree out).
  { apply (generate_tree json_load l1) with (out0 := PDict []); [|apply folder_tree_empty|exact Hl1].
    intros f' Hin. apply Hall, in_or_app. now left. }
  destruct (Hall f) as [Hres Hload]; [apply in_or_app; right; now left|].
  destruct (json_load f) as [j|] eqn:Hj; [clear Hload | congruence].
  destruct (visit_result_file json_load _ Hres Hj Hout) as (out1 & Hvisit & _).
  simpl foldM. rewrite Hvisit. simpl bind.
  destruct (result_file_split _ Hres) as [Hsplit Hplain].
  rewrite visit_file_place, Hsplit in Hvisit |- *.
  now rewrite (@place_twice f j (directories f) Hj Hplain out out1 Hout Hvisit).
Qed.

Lemma place_skip_gen file folders :
  forall v : pyval F, put file folders v = put file (filter not_gen folders) v.
Proof.
  induction folders as [|c cs IH]; intros v; [reflexivity|].
  rewrite place_unfold. simpl filter. unfold not_gen at 1.
  destruct (String.eqb c "gen") eqn:Hgen; simpl negb; cbv iota; [apply IH|].
  rewrite place_unfold, Hgen.
  destruct (String.eqb c file_string).
  - destruct (json_load file); simpl; [|reflexivity].
    destruct (setitem v "data" p); simpl; auto.
  - destruct (py_in c v) as [present|]; simpl; [|reflexivity].
    destruct (if present then Some v else setitem v c (PDict [])) as [t1|];
      simpl; [|reflexivity].
    destruct (getitem t1 c); simpl; [|reflexivity]. now rewrite IH.
Qed.

End GenerateOutputMore.

Section GenerateOutputContent.

Variable F : Type.
Variable json_load : string -> option (pyval F).

Local Abbreviation put := (place json_load).
Variable attrs_accepts : pyval F -> bool.

Local Abbreviation generate := (generate_output json_load attrs_accepts).

Lemma place_same_content file1 file2 folders :
  json_load file1 = json_load file2 ->
  forall v : pyval F, put file1 folders v = put file2 folders v.
Proof.
  intros Hj. induction folders as [|c cs IH]; intros v; [reflexivity|].
  rewrite !place_unfold, Hj.
  destruct (String.eqb c "gen"); [apply IH|].
  destruct (String.eqb c file_string).
  - destruct (json_load file2); simpl; [|reflexivity].
    destruct (setitem v "data" p); simpl; auto.
  - destruct (py_in c v) as [present|]; simpl; [|reflexivity].
    destruct (if present then Some v else setitem v c (PDict [])) as [t1|];
      simpl; [|reflexivity].
    destruct (getitem t1 c); simpl; [|reflexivity]. now rewrite IH.
Qed.

(** X14: where the ["gen"] folders sit on a path does not matter: a file
    can be exchanged for one with the same content and the same key path
    without any change to the dictionary [generate_output] returns. *)
Theorem generate_output_gen_position (l1 l2 : list string) (f1 f2 : string) :
  last (PyStr.split "/" f1) "" = file_string ->
  last (PyStr.split "/" f2) "" = file_string ->
  key_path f1 = key_path f2 ->
  json_load f1 = json_load f2 ->
  generate (l1 ++ f1 :: l2) = generate (l1 ++ f2 :: l2).
Proof.
  intros Hlast1 Hlast2 Hkey Hj. unfold generate_output. rewrite !foldM_app.
  destruct (foldM (visit_file json_load) l1 (PDict [])) as [out|]; [|reflexivity].
  simpl. replace (visit_file json_load out f2) with (visit_file json_load out f1);
    [reflexivity|].
  assert (Hsplit : forall f, last (PyStr.split "/" f) "" = file_string ->
            filter not_gen (PyStr.split "/" f) = key_path f ++ [file_string]).
  { intros f Hlast.
    rewrite (app_removelast_last "" (@split_nonempty "/" f)) at 1.
    rewrite filter_app, Hlast. reflexivity. }
  rewrite !visit_file_place.
  rewrite (place_skip_gen json_load f1), (place_skip_gen json_load f2).
  rewrite (Hsplit _ Hlast1), (Hsplit _ Hlast2), Hkey.
  now apply place_same_content.
Qed.

End GenerateOutputContent.

(** ** From the files to the plot *)

Lemma filterM_In {A : Type} (f : A -> option bool) (l r : list A) (x : A) :
  filterM f l = Some r -> In x l -> f x = Some true -> In x r.
Proof.
  revert r; induction l as [|y l IH]; simpl; intros r H Hin Hx; [contradiction|].
  do 2 inv_bind H. injection H as <-. destruct Hin as [->|Hin].
  - rewrite Hx in E. injection E as <-. now left.
  - destruct x0; [right|]; eauto.
Qed.

Section Pipeline.

Variable F : Type.
Variable json_load : string -> option (pyval F).

(** X15: a result file in folder [lab] of project [project], not
    followed in the list by a file with the same key path, ends up as a
    level of that project: [generate_output] puts the project at its key
    path, and whenever [draw_project] discovers the levels of that
    dictionary, [lab] is among them. *)
Theorem generated_level_is_discovered
    (attrs_accepts : pyval F -> bool)
    (files l1 l2 : list string) (f lab : string) (project : list string)
    (out : pyval F) :
  (forall f', In f' files -> result_file f' = true /\ json_load f' <> None) ->
  files = l1 ++ f :: l2 ->
  (forall f', In f' l2 -> key_path f' <> key_path f) ->
  key_path f = project ++ [lab] ->
  generate_output json_load attrs_accepts files = Some out ->
  exists data,
    getpath out project = Some data /\
    stored data lab [] = json_load f /\
    forall labs, discovered data = Some labs -> In lab labs.
Proof.
  intros Hall Hfiles Hlater Hkey Hout.
  destruct (generate_from json_load files Hall (@folder_tree_empty F))
    as (out' & Hout' & Hstored & _).
  unfold generate_output in Hout. rewrite Hout' in Hout. simpl in Hout.
  apply AttrsDict_Some in Hout as [-> _].
  pose proof (Hstored _ _ _ Hfiles Hlater) as Hget.
  destruct (Hall f) as [_ Hload]; [rewrite Hfiles; apply in_or_app; right; now left|].
  destruct (json_load f) as [j|]; [clear Hload | congruence].
  rewrite Hkey in Hget.
  destruct (getpath_child _ _ _ Hget) as (dl & Hlvl & Hdata).
  destruct (getpath_child _ _ _ Hlvl) as (dp & Hproj & Hlab).
  exists (PDict dp). split; [exact Hproj|]. split.
  - unfold stored. simpl. rewrite Hlab. simpl. now rewrite Hdata.
  - intros labs Hd. unfold discovered in Hd.
    apply (filterM_In _ _ lab Hd).
    + apply lookup_In in Hlab. change lab with (fst (lab, PDict dl)).
      now apply in_map.
    + simpl. rewrite Hlab. simpl. unfold has_key. now rewrite Hdata.
Qed.

End Pipeline.

(** ** The extra properties on the samples *)

Lemma generate_overview_plots_projects_witness :
  exists d projects,
    generate_project_folders QFloat.plain_keys Sample.output = Some (PDict d) /\
    projects_of (PDict d) = Some projects /\
    NoDup projects /\
    (forall project,
        In project projects <->
        exists key v, In (key, v) (iterate_nested_dict d "") /\
                      project_of key = project) /\
    List.length SampleOverview.overview_plots = List.length projects /\
    forall i project,
      nth_error projects i = Some project ->
      exists data p,
        getpath Sample.output project = Some data /\
        QFloat.draw_project Sample.output data project = Some p /\
        nth_error SampleOverview.overview_plots i = Some p.
Proof.
  apply (@generate_overview_plots_projects Q inject_Z Qdiv QFloat.median
           QFloat.plain_keys Sample.output Sample.output
           SampleOverview.overview_plots).
  vm_compute. reflexivity.
Defined.

Lemma draw_project_series_lengths_witness :
  List.length (y_rate Sample.one_level_plot) = List.length (x_labels Sample.one_level_plot) /\
  List.length (y_rate_unc Sample.one_level_plot) = List.length (x_labels Sample.one_level_plot) /\
  List.length (y_rate_median Sample.one_level_plot) = List.length (x_labels Sample.one_level_plot).
Proof.
  apply (@draw_project_series_lengths Q inject_Z Qdiv QFloat.median
           Sample.output Sample.one_level Sample.project_list).
  vm_compute. reflexivity.
Defined.

Lemma draw_project_malformed_level_witness :
  QFloat.draw_project Sample.output SampleOverview.broken_levels Sample.project_list = None.
Proof.
  apply (@draw_project_malformed_level Q inject_Z Qdiv QFloat.median
           Sample.output SampleOverview.broken_levels Sample.project_list
           ["m1"; "m2"] "m2").
  - reflexivity.
  - simpl. auto.
  - do 4 right. exists (PList [PInt 66; PNone; PInt 65]).
    split; [reflexivity|]. right. exists [PInt 66; PNone; PInt 65], PNone.
    simpl. auto.
Defined.

Lemma draw_project_several_levels_witness :
  QFloat.draw_project Sample.output Sample.three_levels Sample.project_list =
  QFloat.draw_project (PDict []) Sample.three_levels [].
Proof.
  apply (@draw_project_several_levels Q inject_Z Qdiv QFloat.median
           Sample.output (PDict []) Sample.three_levels Sample.project_list []
           ["m2"; "m16"; "m1"]).
  - reflexivity.
  - simpl. lia.
Defined.

Lemma draw_project_single_level_short_list_witness :
  QFloat.draw_project Sample.output Sample.one_level ["simple"] = None.
Proof.
  apply (@draw_project_single_level_short_list Q inject_Z Qdiv QFloat.median
           Sample.output Sample.one_level ["simple"] ["m1"]).
  - reflexivity.
  - reflexivity.
  - simpl. lia.
Defined.

Lemma generate_output_unloadable_witness :
  QFloat.generate_output Sample.disk
    ["a/m2/runtime_estimates.json"; "b/runtime_estimates.json"] = None.
Proof.
  apply (@generate_output_unloadable Q Sample.disk QFloat.plain_keys
           ["a/m2/runtime_estimates.json"; "b/runtime_estimates.json"]
           "b/runtime_estimates.json").
  - intros f' [<-|[<-|[]]]; reflexivity.
  - simpl. auto.
  - reflexivity.
Defined.

Lemma generate_output_repeated_file_witness :
  QFloat.generate_output Sample.disk
    (["a/gen/m1/runtime_estimates.json"]
       ++ "a/m2/runtime_estimates.json" :: "a/m2/runtime_estimates.json" :: []) =
  QFloat.generate_output Sample.disk
    (["a/gen/m1/runtime_estimates.json"] ++ "a/m2/runtime_estimates.json" :: []).
Proof.
  apply (@generate_output_repeated_file Q Sample.disk QFloat.plain_keys
           ["a/gen/m1/runtime_estimates.json"] [] "a/m2/runtime_estimates.json").
  intros f' [<-|[<-|[]]]; (split; [reflexivity | discriminate]).
Defined.

Lemma generate_output_gen_position_witness :
  QFloat.generate_output SampleOverview.uniform_disk
    ([] ++ "a/gen/m1/runtime_estimates.json" :: []) =
  QFloat.generate_output SampleOverview.uniform_disk
    ([] ++ "a/m1/gen/runtime_estimates.json" :: []).
Proof.
  apply (@generate_output_gen_position Q SampleOverview.uniform_disk
           QFloat.plain_keys [] []
           "a/gen/m1/runtime_estimates.json" "a/m1/gen/runtime_estimates.json");
    reflexivity.
Defined.

Lemma generated_level_is_discovered_witness :
  exists data,
    getpath (PDict [("a", PDict [("m2", PDict [("data", PDict [("run", @PInt Q 2)])])])])
            ["a"] = Some data /\
    stored data "m2" [] = Sample.disk "a/m2/runtime_estimates.json" /\
    forall labs, discovered data = Some labs -> In "m2" labs.
Proof.
  apply (@generated_level_is_discovered Q Sample.disk QFloat.plain_keys
           ["a/m2/runtime_estimates.json"] [] [] "a/m2/runtime_estimates.json"
           "m2" ["a"]).
  - intros f' [<-|[]]. split; [reflexivity | discriminate].
  - reflexivity.
  - intros f' [].
  - reflexivity.
  - reflexivity.
Defined.

(** ** From the files to the project folders *)

Module PyStrSplit.

Import PyStr.

Lemma split_app (sep : ascii) (a b : string) :
  split sep (a ++ String sep b) = split sep a ++ split sep b.
Proof.
  induction a as [|c a IH]; simpl.
  - now rewrite Ascii.eqb_refl.
  - destruct (Ascii.eqb c sep); [now rewrite IH|].
    rewrite IH. destruct (split sep a) as [|h t] eqn:Ha; [|reflexivity].
    now destruct (@split_nonempty sep a).
Qed.

End PyStrSplit.

Section LeavesOfOutput.

Variable F : Type.
Variable json_load : string -> option (pyval F).

Local Abbreviation put := (place json_load).

Lemma full_key_nonempty (parent_key k : string) :
  parent_key <> "" -> full_key parent_key k = (parent_key ++ String "." k)%string.
Proof. destruct parent_key; [congruence | reflexivity]. Qed.

Lemma append_nonempty (a b : string) : a <> "" -> (a ++ b)%string <> "".
Proof. destruct a; [congruence | discriminate]. Qed.

Lemma dotted_keeps (parent_key x : string) (p : list string) :
  parent_key <> "" ->
  In x (PyStr.split "." parent_key) ->
  In x (PyStr.split "." (dotted parent_key p)).
Proof.
  revert parent_key; induction p as [|k p IH]; intros parent_key Hne Hin;
    [exact Hin|].
  simpl. rewrite (full_key_nonempty _ Hne). apply IH.
  - now apply append_nonempty.
  - rewrite PyStrSplit.split_app. apply in_or_app. now left.
Qed.

Lemma dotted_data (parent_key : string) (p : list string) :
  In "data" p -> In "data" (PyStr.split "." (dotted parent_key p)).
Proof.
  revert parent_key; induction p as [|k p IH]; intros parent_key; [contradiction|].
  intros [->|Hin]; [|now apply IH].
  simpl. apply dotted_keeps.
  - destruct parent_key; discriminate.
  - destruct parent_key as [|c s]; [simpl; now left|].
    rewrite full_key_nonempty by discriminate.
    rewrite PyStrSplit.split_app. apply in_or_app. right. simpl. now left.
Qed.

Lemma index_present (x : string) (l : list string) :
  In x l -> exists i, index x l = Some i.
Proof.
  induction l as [|y l IH]; [contradiction|]. simpl. intros Hin.
  destruct (String.eqb_spec y x) as [->|Hne]; [eauto|].
  destruct Hin as [->|Hin]; [congruence|].
  destruct (IH Hin) as [i ->]. simpl. eauto.
Qed.

Lemma keys_assoc_set (d : dict F) k (x : pyval F) :
  NoDup (keys d) -> NoDup (keys (assoc_set k x d)).
Proof.
  intros Hnd.
  assert (Hkeys : keys (assoc_set k x d) =
                  if has_key k d then keys d else keys d ++ [k]).
  { unfold has_key. induction d as [|[k0 v0] d IH]; simpl; [reflexivity|].
    inversion Hnd; subst.
    destruct (String.eqb_spec k k0) as [->|Hne]; simpl; [reflexivity|].
    rewrite IH by assumption. now destruct (lookup k d). }
  rewrite Hkeys. unfold has_key.
  destruct (lookup k d) eqn:Hk; [exact Hnd|].
  apply NoDup_app; [exact Hnd | repeat constructor; intros []|].
  intros a Ha [<-|[]]. exact (lookup_None _ _ Hk Ha).
Qed.

Lemma distinct_keys_set (d : dict F) k (x : pyval F) :
  distinct_keys (PDict d) -> distinct_keys x ->
  distinct_keys (PDict (assoc_set k x d)).
Proof.
  rewrite !distinct_keys_dict. intros [Hnd Hall] Hx.
  split; [now apply keys_assoc_set|].
  rewrite Forall_forall in *. intros [k' v'] Hin.
  apply In_assoc_set in Hin as [[-> ->]|Hin]; [exact Hx | exact (Hall _ Hin)].
Qed.

Lemma distinct_keys_child (d : dict F) k (c : pyval F) :
  distinct_keys (PDict d) -> lookup k d = Some c -> distinct_keys c.
Proof.
  rewrite distinct_keys_dict, Forall_forall. intros [_ Hall] Hc.
  exact (Hall _ (lookup_In _ _ Hc)).
Qed.

Lemma distinct_keys_empty : distinct_keys (@PDict F []).
Proof. simpl. split; constructor. Qed.

Lemma place_distinct file j dirs :
  json_load file = Some j ->
  distinct_keys j ->
  forallb plain_folder dirs = true ->
  forall v v' : pyval F,
    folder_tree v -> distinct_keys v ->
    put file (dirs ++ [file_string]) v = Some v' ->
    distinct_keys v'.
Proof.
  intros Hj Hdj. induction dirs as [|c ds IH]; intros Hplain v v' Hv Hdv;
    destruct (folder_tree_root Hv) as [d ->]; simpl app; rewrite place_unfold.
  - simpl String.eqb. rewrite Hj. simpl. intros [= <-].
    now apply distinct_keys_set.
  - simpl in Hplain. apply andb_true_iff in Hplain as [Hc Hds].
    destruct (plain_folder_spec _ Hc) as [Hc1 Hc2].
    destruct (String.eqb c "gen"); [exact (IH Hds _ _ Hv Hdv)|].
    apply String.eqb_neq in Hc2. rewrite Hc2. simpl py_in. unfold has_key.
    destruct (lookup c d) as [ch|] eqn:Hch; simpl bind.
    + rewrite Hch. simpl bind. intros H. inv_bind H. injection H as <-.
      apply distinct_keys_set; [exact Hdv|].
      exact (IH Hds _ _ (folder_tree_child Hv Hc1 Hch)
                (distinct_keys_child _ Hdv Hch) E).
    + rewrite lookup_assoc_set_eq. simpl bind. intros H. inv_bind H.
      injection H as <-.
      apply distinct_keys_set;
        [apply distinct_keys_set; [exact Hdv | apply distinct_keys_empty]|].
      exact (IH Hds _ _ (@folder_tree_empty F) distinct_keys_empty E).
Qed.

Lemma generate_distinct (files : list string) :
  (forall f, In f files -> result_file f = true /\ json_load f <> None) ->
  (forall f j, json_load f = Some j -> distinct_keys j) ->
  forall out0 out : pyval F,
    folder_tree out0 -> distinct_keys out0 ->
    foldM (visit_file json_load) files out0 = Some out ->
    distinct_keys out.
Proof.
  intros Hall Hdist. induction files as [|f files IH]; intros out0 out Hout0 Hd0 H.
  - now injection H as <-.
  - destruct (Hall f (or_introl eq_refl)) as [Hres Hload].
    destruct (json_load f) as [j|] eqn:Hj; [clear Hload | congruence].
    destruct (visit_result_file json_load _ Hres Hj Hout0)
      as (out1 & Hvisit & Htree & _).
    simpl in H. rewrite Hvisit in H. simpl in H.
    apply (IH (fun f' Hin => Hall f' (or_intror Hin)) out1 out Htree); [|exact H].
    destruct (result_file_split _ Hres) as [Hsplit Hplain].
    rewrite visit_file_place, Hsplit in Hvisit.
    exact (@place_distinct f j (directories f) Hj (Hdist _ _ Hj) Hplain
             out0 out1 Hout0 Hd0 Hvisit).
Qed.

(** X16: every key that [iterate_nested_dict] yields from the dictionary
    of [generate_output] has ["data"] among its dot-separated components,
    so that [generate_project_folders] finds its [folder_list]:
    [list.index] does not raise on the notebook's own output. *)
Theorem generated_keys_have_data
    (attrs_accepts : pyval F -> bool)
    (files : list string) (d : dict F) (key : string) (v : pyval F) :
  (forall f, In f files -> result_file f = true /\ json_load f <> None) ->
  (forall f j, json_load f = Some j -> distinct_keys j) ->
  generate_output json_load attrs_accepts files = Some (PDict d) ->
  In (key, v) (iterate_nested_dict d "") ->
  In "data" (PyStr.split "." key) /\
  exists folder_list, folders_of key = Some folder_list.
Proof.
  intros Hall Hdist Hout Hin.
  unfold generate_output in Hout. inv_bind Hout.
  apply AttrsDict_Some in Hout as [<- _]. rename E into Hout.
  assert (Htree : folder_tree (PDict d))
    by (exact (generate_tree json_load files Hall (@folder_tree_empty F) Hout)).
  assert (Hd : distinct_keys (PDict d))
    by (exact (generate_distinct files Hall Hdist (@folder_tree_empty F)
                 distinct_keys_empty Hout)).
  apply (iterate_nested_dict_paths_of _ _ Hd) in Hin as (p & -> & Hget & Hleaf).
  assert (Hdata : In "data" p).
  { destruct (in_dec string_dec "data" p) as [H|H]; [exact H|].
    destruct (Htree p v) as [d' ->]; [|exact Hget|now destruct (Hleaf d')].
    apply Forall_forall. intros k Hk ->. contradiction. }
  pose proof (dotted_data "" p Hdata) as Hcomp.
  split; [exact Hcomp|].
  unfold folders_of. destruct (index_present _ _ Hcomp) as [i ->]. simpl. eauto.
Qed.

End LeavesOfOutput.

Lemma sample_disk_distinct :
  forall f j, Sample.disk f = Some j -> distinct_keys j.
Proof.
  intros f j H. unfold Sample.disk in H.
  repeat (destruct (String.eqb f _);
          [injection H as <-; simpl; repeat split; repeat constructor; simpl; tauto|]).
  discriminate.
Qed.

Lemma generated_keys_have_data_witness :
  In "data" (PyStr.split "." "a.m2.data.run") /\
  exists folder_list, folders_of "a.m2.data.run" = Some folder_list.
Proof.
  apply (@generated_keys_have_data Q Sample.disk QFloat.plain_keys
           ["a/m2/runtime_estimates.json"]
           [("a", PDict [("m2", PDict [("data", PDict [("run", PInt 2)])])])]
           "a.m2.data.run" (PInt 2)).
  - intros f' [<-|[]]. split; [reflexivity | discriminate].
  - exact sample_disk_distinct.
  - reflexivity.
  - simpl. now left.
Defined.

(** ** Which keys are plotted *)

Lemma filterM_In_inv {A : Type} (f : A -> option bool) (l r : list A) (x : A) :
  filterM f l = Some r -> In x r -> In x l /\ f x = Some true.
Proof.
  revert r; induction l as [|y l IH]; simpl; intros r H Hin.
  - injection H as <-. contradiction.
  - do 2 inv_bind H. injection H as <-. destruct x0.
    + destruct Hin as [->|Hin]; [auto|]. destruct (IH _ E0 Hin). auto.
    + destruct (IH _ E0 Hin). auto.
Qed.

Section PlottedLabels.

Variable F : Type.
Variable float_of_Z : Z -> F.
Variable fdiv : F -> F -> F.
Variable np_median : list F -> F.

Local Abbreviation draw := (draw_project float_of_Z fdiv np_median).

(** X17: a key of [data] is plotted exactly when its value holds
    ["data"]: folders without a result are left out, and apart from the
    ["default"] entry no other label is added. *)
Theorem draw_project_plotted_labels
    (output data : pyval F) (pl : list string) (p : plot F) (lab : string) :
  draw output data pl = Some p ->
  lab <> "default" ->
  (In lab (x_labels p) <->
   exists v, getitem data lab = Some v /\ py_in "data" v = Some true).
Proof.
  intros H Hlab.
  destruct (@draw_project_inv F float_of_Z fdiv np_median _ _ _ _ H)
    as (labs & rate & unc & med & Hd & _ & _ & _ & Hshape).
  assert (Hx : In lab (x_labels p) <-> In lab labs).
  { destruct Hshape as [[_ ->]|[_ (tmp & val & std & r & m & _ & _ & _ & _ & _ & ->)]];
      simpl x_labels; rewrite ?in_app_iff; simpl.
    - split; apply Permutation_in;
        [symmetry|]; apply PyStrFacts.sort_perm.
    - split.
      + intros [Hin|[Heq|[]]]; [|congruence].
        exact (Permutation_in _ (Permutation_sym (PyStrFacts.sort_perm labs)) Hin).
      + intros Hin. left. exact (Permutation_in _ (PyStrFacts.sort_perm labs) Hin). }
  rewrite Hx. unfold discovered in Hd. destruct data as [| | | | | |d]; try discriminate.
  split.
  - intros Hin. destruct (filterM_In_inv _ _ _ Hd Hin) as [_ Hf].
    inv_bind Hf. eauto.
  - intros (v & Hget & Hv). apply (filterM_In _ _ lab Hd).
    + simpl in Hget. apply lookup_In in Hget.
      change lab with (fst (lab, v)). now apply in_map.
    + rewrite Hget. exact Hv.
Qed.

End PlottedLabels.

Lemma draw_project_plotted_labels_witness :
  In "m16" (x_labels Sample.three_level_plot) <->
  exists v, getitem Sample.three_levels "m16" = Some v /\ py_in "data" v = Some true.
Proof.
  apply (@draw_project_plotted_labels Q inject_Z Qdiv QFloat.median
           Sample.output Sample.three_levels Sample.project_list).
  - vm_compute. reflexivity.
  - discriminate.
Defined.

Lemma iterate_nested_dict_yields_leaves_witness :
  In ("d", PStr "x") (iterate_nested_dict SampleOverview.nested "") /\
  forall d', @PStr Q "x" <> PDict d'.
Proof.
  assert (Hin : In ("d", @PStr Q "x") (iterate_nested_dict SampleOverview.nested ""))
    by (simpl; auto).
  split; [exact Hin|].
  exact (@iterate_nested_dict_yields_leaves Q SampleOverview.nested "" "d" (PStr "x") Hin).
Defined.
